(** * update_stats.py: the line-count estimate and the date-keyed store

    A shallow embedding of [src/update_stats.py].  JSON values received
    from the hosting service or read from [stats.json] are an inductive
    type, Python exceptions are an error outcome, and the network, the
    console and the file are an explicit event trace and state. *)

From Stdlib Require Import ZArith QArith List String Ascii Bool Lia.
From Stdlib Require Import Sorted Permutation DecimalString.
Import ListNotations.
Set Warnings "-register-all".
Local Open Scope string_scope.
Local Open Scope list_scope.
Local Open Scope Z_scope.

(** ** JSON values as Python sees them *)

(** A Python [float] produced by the JSON decoder: a finite rational, an
    infinity or a NaN. *)
Inductive pyfloat :=
| FNan
| FInf (negative : bool)
| FFinite (q : Q).

(** The result of [json.load] / [resp.json()].  A [dict] keeps its keys in
    insertion order; the decoder never produces a repeated key.  A Python
    [str] is a Rocq string with one character per code point. *)
Inductive json :=
| JNull
| JBool (b : bool)
| JInt (z : Z)
| JFloat (f : pyfloat)
| JStr (s : string)
| JList (items : list json)
| JDict (fields : list (string * json)).

Definition pydict := list (string * json).

(** ** Outcomes *)

Inductive exn :=
| AttributeError
| TypeError
| ValueError
| OverflowError
| RequestError
| OSError.

(** Why a computation produced no value: an uncaught Python exception, a
    paging loop that was still running when the fuel ran out, or a
    behaviour of a builtin that the embedding leaves out. *)
Inductive failure :=
| Raised (e : exn)
| NoFuel
| Unmodelled.

Inductive outcome (A : Type) :=
| Ok (a : A)
| Fail (f : failure).
Arguments Ok {A} a.
Arguments Fail {A} f.

Definition Raise {A : Type} (e : exn) : outcome A := Fail (Raised e).

Definition obind {A B : Type} (o : outcome A) (k : A -> outcome B) : outcome B :=
  match o with
  | Ok a => k a
  | Fail f => Fail f
  end.

Declare Scope outcome_scope.
Delimit Scope outcome_scope with outcome.
Notation "x <~ o ;; k" := (obind o (fun x => k))
  (at level 61, o at next level, right associativity) : outcome_scope.

(** ** The world outside the program *)

Inductive request :=
| ListRepos (page : Z)                    (* GET /user/repos?page=.. *)
| CodeFrequency (owner name : json)       (* GET /repos/o/n/stats/code_frequency *)
| Languages (owner name : json).          (* GET /repos/o/n/languages *)

(** What [session.get] does: it raises, or it returns a response whose body
    [resp.json()] decodes ([None] when the body is not JSON). *)
Inductive http_outcome :=
| ConnectionFailed
| Response (status_code : Z) (body : option json).

Record response := { status_code : Z; body : option json }.

Inductive level := Info | Warn | Error.

Inductive event :=
| Get (r : request)
| Sleep (seconds : Z)
| Print (l : level)
| ProbeStats                     (* os.path.exists(STATS_FILE) *)
| ReadStats                      (* open(STATS_FILE) and json.load *)
| WriteStats (data : list json). (* json.dump(data, f) *)

(** [stats.json]: absent, present but failing to open or decode, or
    holding a JSON value. *)
Inductive stats_file :=
| Missing
| Unreadable
| Holds (j : json).

(** What writing [stats.json] does: it succeeds; [open(STATS_FILE, "w")]
    raises [OSError] and the file is as it was; or the file is truncated
    and [json.dump] (or the closing of the file) then raises, which leaves
    either a part of the text, that does not decode, or the whole of it. *)
Inductive write_outcome :=
| Written
| OpenRefused
| DumpBroken (e : exn) (whole : bool).

(** The environment of one run.  [http] answers a request from the history
    of events so far; [int_of_str] is Python's [int] on a [str], [None]
    where it raises [ValueError]; [disk] says how a write of the records
    ends. *)
Record env := {
  http : list event -> request -> http_outcome;
  today : string;
  has_token : bool;
  int_of_str : string -> option Z;
  disk : list event -> list json -> write_outcome
}.

Record state := { trace : list event; stats : stats_file }.

Definition M (A : Type) : Type := env -> state -> outcome A * state.

Definition ret {A : Type} (a : A) : M A := fun _ s => (Ok a, s).

Definition bind {A B : Type} (m : M A) (k : A -> M B) : M B :=
  fun E s =>
    match m E s with
    | (Ok a, s') => k a E s'
    | (Fail f, s') => (Fail f, s')
    end.

Definition lift {A : Type} (o : env -> outcome A) : M A := fun E s => (o E, s).

Definition log (e : event) (s : state) : state :=
  {| trace := trace s ++ [e]; stats := stats s |}.

Definition emit (e : event) : M unit := fun _ s => (Ok tt, log e s).

Definition print (l : level) : M unit := emit (Print l).
Definition sleep (seconds : Z) : M unit := emit (Sleep seconds).

Declare Scope io_scope.
Delimit Scope io_scope with io.
Notation "x <- m ;; k" := (bind m (fun x => k))
  (at level 61, m at next level, right associativity) : io_scope.
Notation "m ;; k" := (bind m (fun _ => k))
  (at level 61, right associativity) : io_scope.

Definition session_get (r : request) : M response :=
  fun E s =>
    match http E (trace s) r with
    | ConnectionFailed => (Raise RequestError, log (Get r) s)
    | Response st b => (Ok {| status_code := st; body := b |}, log (Get r) s)
    end.

Definition resp_json (resp : response) : M json :=
  lift (fun _ => match body resp with
                 | Some j => Ok j
                 | None => Raise ValueError
                 end).

(** ** Python builtins on JSON values *)

Fixpoint dict_get (key : string) (d : pydict) : option json :=
  match d with
  | [] => None
  | (k, v) :: d' => if String.eqb k key then Some v else dict_get key d'
  end.

(** [d[key] = v]: the value is replaced where the key is, a new key goes to
    the end. *)
Fixpoint dict_set (key : string) (v : json) (d : pydict) : pydict :=
  match d with
  | [] => [(key, v)]
  | (k, w) :: d' =>
      if String.eqb k key then (k, v) :: d' else (k, w) :: dict_set key v d'
  end.

(** [x.get(key, default)]; only a [dict] has the method. *)
Definition py_get (x : json) (key : string) (default : json) : outcome json :=
  match x with
  | JDict d =>
      Ok (match dict_get key d with Some v => v | None => default end)
  | _ => Raise AttributeError
  end.

(** [bool(x)]. *)
Definition truthy (x : json) : bool :=
  match x with
  | JNull => false
  | JBool b => b
  | JInt z => negb (z =? 0)
  | JFloat (FFinite q) => negb (Qnum q =? 0)
  | JFloat _ => true
  | JStr s => negb (String.eqb s "")
  | JList l => match l with [] => false | _ => true end
  | JDict d => match d with [] => false | _ => true end
  end.

(** [int(x)]. *)
Definition py_int (E : env) (x : json) : outcome Z :=
  match x with
  | JInt z => Ok z
  | JBool b => Ok (if b then 1 else 0)
  | JFloat FNan => Raise ValueError
  | JFloat (FInf _) => Raise OverflowError
  | JFloat (FFinite q) => Ok (Z.quot (Qnum q) (Zpos (Qden q)))
  | JStr s =>
      match int_of_str E s with
      | Some z => Ok z
      | None => Raise ValueError
      end
  | JNull | JList _ | JDict _ => Raise TypeError
  end.

(** The elements [list.extend(x)] appends. *)
Definition py_iter (x : json) : outcome (list json) :=
  match x with
  | JList l => Ok l
  | JDict d => Ok (map (fun kv => JStr (fst kv)) d)
  | JStr s => Ok (map (fun c => JStr (String c EmptyString)) (list_ascii_of_string s))
  | _ => Raise TypeError
  end.

(** [range(a, b)]. *)
Definition py_range (a b : Z) : list Z :=
  map (fun i => a + Z.of_nat i) (seq 0 (Z.to_nat (b - a))).

(** ** get_session (lines 14-28) *)

Definition get_session : M unit :=
  fun E s => if has_token E then ret tt E s else print Warn E s.

(** ** fetch_all_repos (lines 31-63) *)

(** The [while True] loop; one unit of fuel per page requested. *)
Fixpoint fetch_pages (fuel : nat) (page : Z) (repos : list json) : M (list json) :=
  match fuel with
  | O => fun _ s => (Fail NoFuel, s)
  | S fuel' =>
      (resp <- session_get (ListRepos page) ;;
       if negb (status_code resp =? 200) then
         print Error ;; ret repos
       else
         batch <- resp_json resp ;;
         if negb (truthy batch) then ret repos
         else
           items <- lift (fun _ => py_iter batch) ;;
           print Info ;;
           fetch_pages fuel' (page + 1) (repos ++ items))%io
  end.

(** [[r for r in repos if not r.get("fork")]]. *)
Fixpoint non_fork (repos : list json) : outcome (list json) :=
  match repos with
  | [] => Ok []
  | r :: rest =>
      (fork <~ py_get r "fork" JNull ;;
       kept <~ non_fork rest ;;
       Ok (if truthy fork then kept else r :: kept))%outcome
  end.

Definition fetch_all_repos (fuel : nat) : M (list json) :=
  (print Info ;;
   repos <- fetch_pages fuel 1 [] ;;
   non_fork_repos <- lift (fun _ => non_fork repos) ;;
   print Info ;;
   ret non_fork_repos)%io.

(** ** fetch_repo_code_frequency (lines 66-109) *)

Definition default_retries : Z := 5.
Definition default_backoff_seconds : Z := 8.

(** The [for attempt in range(1, retries + 1)] loop over the attempts that
    are left. *)
Fixpoint code_frequency_attempts (owner name : json) (retries backoff_seconds : Z)
    (attempts : list Z) : M (option (list json)) :=
  match attempts with
  | [] => ret None
  | attempt :: later =>
      (resp <- session_get (CodeFrequency owner name) ;;
       if status_code resp =? 202 then
         if attempt =? retries then
           print Warn ;; ret None
         else
           print Info ;;
           sleep backoff_seconds ;;
           code_frequency_attempts owner name retries backoff_seconds later
       else if status_code resp =? 204 then
         print Warn ;; ret (Some [])
       else if negb (status_code resp =? 200) then
         print Warn ;; ret None
       else
         data <- resp_json resp ;;
         match data with
         | JList samples => ret (Some samples)
         | _ => print Warn ;; ret None
         end)%io
  end.

Definition fetch_repo_code_frequency (owner name : json)
    (retries backoff_seconds : Z) : M (option (list json)) :=
  code_frequency_attempts owner name retries backoff_seconds
    (py_range 1 (retries + 1)).

(** ** fetch_repo_languages (lines 112-124) *)

(** [{k: int(v) for k, v in data.items()}]. *)
Fixpoint int_values (E : env) (d : pydict) : outcome (list (string * Z)) :=
  match d with
  | [] => Ok []
  | (k, v) :: d' =>
      (n <~ py_int E v ;;
       rest <~ int_values E d' ;;
       Ok ((k, n) :: rest))%outcome
  end.

Definition fetch_repo_languages (owner name : json) : M (option (list (string * Z))) :=
  (resp <- session_get (Languages owner name) ;;
   if negb (status_code resp =? 200) then
     print Warn ;; ret None
   else
     data <- resp_json resp ;;
     match data with
     | JDict d => langs <- lift (fun E => int_values E d) ;; ret (Some langs)
     | _ => ret None
     end)%io.

(** ** compute_total_lines (lines 127-164) *)

(** Lines 146-151: the loop over the weekly samples, [repo_total] being the
    sum so far.  The unpacking [_, additions, deletions = week] raises
    [ValueError] unless [week] has exactly three items. *)
Fixpoint sum_weeks (E : env) (freq : list json) (repo_total : Z) : outcome Z :=
  match freq with
  | [] => Ok repo_total
  | week :: rest =>
      match week with
      | JList items =>
          if (List.length items <? 3)%nat then sum_weeks E rest repo_total
          else
            match items with
            | [_; additions; deletions] =>
                (a <~ py_int E additions ;;
                 d <~ py_int E deletions ;;
                 sum_weeks E rest (repo_total + (a - d)))%outcome
            | _ => Raise ValueError
            end
      | _ => sum_weeks E rest repo_total
      end
  end.

(** [sum(langs.values())]. *)
Definition byte_sum (langs : list (string * Z)) : Z :=
  fold_left (fun acc kv => acc + snd kv) langs 0.

(** Lines 154-158: the estimate from the language byte counts; [//] is
    floor division. *)
Definition languages_estimate (langs : option (list (string * Z))) : M Z :=
  match langs with
  | Some ((_ :: _) as d) => (print Info ;; ret (byte_sum d / 50))%io
  | _ => ret 0
  end.

(** Lines 142-158: [repo_total] of one repository. *)
Definition repo_estimate (owner name : json) : M Z :=
  (freq <- fetch_repo_code_frequency owner name default_retries default_backoff_seconds ;;
   match freq with
   | Some weeks => lift (fun E => sum_weeks E weeks 0)
   | None =>
       langs <- fetch_repo_languages owner name ;;
       languages_estimate langs
   end)%io.

(** One round of the [for repo in repos] loop: the running total after
    [repo], which is unchanged when the round ends at [continue]. *)
Definition count_repo (repo : json) (total_lines : Z) : M Z :=
  (_full_name <- lift (fun _ => py_get repo "full_name" (JStr "")) ;;
   owner_obj <- lift (fun _ => py_get repo "owner" (JDict [])) ;;
   owner <- lift (fun _ => py_get owner_obj "login" (JStr "")) ;;
   name <- lift (fun _ => py_get repo "name" (JStr "")) ;;
   if negb (truthy owner) || negb (truthy name) then
     ret total_lines
   else
     print Info ;;
     repo_total <- repo_estimate owner name ;;
     print Info ;;
     ret (total_lines + Z.max repo_total 0))%io.

Fixpoint total_over (repos : list json) (total_lines : Z) : M Z :=
  match repos with
  | [] => ret total_lines
  | repo :: rest =>
      (total_lines' <- count_repo repo total_lines ;;
       total_over rest total_lines')%io
  end.

Definition compute_total_lines (repos : list json) : M Z :=
  (total_lines <- total_over repos 0 ;;
   print Info ;;
   ret (Z.max total_lines 0))%io.

(** ** load_existing_stats and save_stats (lines 167-187) *)

Definition read_file : M stats_file := fun _ s => (Ok (stats s), s).

Definition load_existing_stats : M (list json) :=
  (emit ProbeStats ;;
   file <- read_file ;;
   match file with
   | Missing => print Info ;; ret []
   | Unreadable => emit ReadStats ;; print Error ;; ret []
   | Holds (JList data) => emit ReadStats ;; ret data
   | Holds _ => emit ReadStats ;; print Warn ;; ret []
   end)%io.

(** Lines 185-186: the file is opened for writing, which truncates it, and
    the records are dumped into it. *)
Definition write_file (data : list json) : M unit :=
  fun E s =>
    match disk E (trace s) data with
    | Written =>
        (Ok tt,
         {| trace := trace s ++ [WriteStats data]; stats := Holds (JList data) |})
    | OpenRefused => (Raise OSError, log (WriteStats data) s)
    | DumpBroken e whole =>
        (Raise e,
         {| trace := trace s ++ [WriteStats data];
            stats := if whole then Holds (JList data) else Unreadable |})
    end.

Definition save_stats (data : list json) : M unit :=
  (write_file data ;; print Info)%io.

(** ** The merge of today's total into the records (lines 202-214) *)

(** [entry.get("date") == today], [today] being a [str]. *)
Definition is_today (date : json) (today : string) : bool :=
  match date with
  | JStr s => String.eqb s today
  | _ => false
  end.

(** [entry["total_lines"] = total_lines] on the entry the list holds. *)
Definition set_total_lines (entry : json) (total_lines : Z) : outcome json :=
  match entry with
  | JDict d => Ok (JDict (dict_set "total_lines" (JInt total_lines) d))
  | _ => Raise TypeError
  end.

(** Lines 203-208: the loop that looks for today's entry and stops at the
    first one; the flag is [updated]. *)
Fixpoint overwrite_today (today : string) (total_lines : Z) (existing : list json)
  : outcome (bool * list json) :=
  match existing with
  | [] => Ok (false, [])
  | entry :: rest =>
      (date <~ py_get entry "date" JNull ;;
       if is_today date today then
         entry' <~ set_total_lines entry total_lines ;;
         Ok (true, entry' :: rest)
       else
         r <~ overwrite_today today total_lines rest ;;
         Ok (fst r, entry :: snd r))%outcome
  end.

Definition new_record (today : string) (total_lines : Z) : json :=
  JDict [("date", JStr today); ("total_lines", JInt total_lines)].

(** [x.get("date", "")] for every entry, before any comparison is made. *)
Fixpoint date_keys (l : list json) : outcome (list (json * json)) :=
  match l with
  | [] => Ok []
  | x :: l' =>
      (k <~ py_get x "date" (JStr "") ;;
       ks <~ date_keys l' ;;
       Ok ((k, x) :: ks))%outcome
  end.

Fixpoint string_keys (l : list (json * json)) : option (list (string * json)) :=
  match l with
  | [] => Some []
  | (JStr k, x) :: l' => option_map (cons (k, x)) (string_keys l')
  | _ => None
  end.

(** A stable sort on [str] keys: an entry goes in front of the first one
    whose key is not smaller. *)
Fixpoint insert_keyed (x : string * json) (l : list (string * json))
  : list (string * json) :=
  match l with
  | [] => [x]
  | y :: l' =>
      if String.ltb (fst y) (fst x) then y :: insert_keyed x l' else x :: y :: l'
  end.

Fixpoint sort_keyed (l : list (string * json)) : list (string * json) :=
  match l with
  | [] => []
  | x :: l' => insert_keyed x (sort_keyed l')
  end.

(** [existing.sort(key=lambda x: x.get("date", ""))].  Keys that are all
    [str] are compared by code points; a list of at most one entry is
    compared with nothing.  Python's order on other keys (numbers, lists,
    [TypeError] between unlike types) is left out. *)
Definition sort_by_date (l : list json) : outcome (list json) :=
  (keyed <~ date_keys l ;;
   match string_keys keyed with
   | Some ks => Ok (map snd (sort_keyed ks))
   | None =>
       match l with
       | [] | [_] => Ok l
       | _ => Fail Unmodelled
       end
   end)%outcome.

Definition upsert (existing : list json) (today : string) (total_lines : Z)
  : outcome (list json) :=
  (r <~ overwrite_today today total_lines existing ;;
   sort_by_date
     (if fst r then snd r else snd r ++ [new_record today total_lines]))%outcome.

(** ** update_stats (lines 190-215) *)

Definition update_stats (fuel : nat) : M unit :=
  (get_session ;;
   repos <- fetch_all_repos fuel ;;
   match repos with
   | [] => print Warn ;; ret tt
   | _ :: _ =>
       total_lines <- compute_total_lines repos ;;
       existing <- load_existing_stats ;;
       merged <- lift (fun E => upsert existing (today E) total_lines) ;;
       save_stats merged
   end)%io.

(** ** Specification vocabulary *)

(** A sample the summation does not skip: an ordered list of three or more
    items. *)
Definition well_formed (week : json) : bool :=
  match week with
  | JList items => (3 <=? List.length items)%nat
  | _ => false
  end.

(** A weekly sample of the data model, [[week, additions, deletions]] with
    integer counts, or an entry that is not well formed. *)
Definition sample_or_malformed (week : json) : bool :=
  match week with
  | JList [_; JInt _; JInt _] => true
  | _ => negb (well_formed week)
  end.

Definition net_change (week : json) : Z :=
  match week with
  | JList (_ :: JInt additions :: JInt deletions :: _) => additions - deletions
  | _ => 0
  end.

(** The sum of (additions - deletions) over the well-formed samples. *)
Definition net_sum (freq : list json) : Z :=
  fold_right Z.add 0 (map net_change (filter well_formed freq)).

(** A record of the store as far as the merge reads it: a [dict] whose
    date, when it has one, is a [str]. *)
Definition well_dated (e : json) : bool :=
  match e with
  | JDict d =>
      match dict_get "date" d with
      | None | Some (JStr _) => true
      | Some _ => false
      end
  | _ => false
  end.

(** The date a record is sorted by, the empty string when it has none. *)
Definition date_of (e : json) : string :=
  match e with
  | JDict d =>
      match dict_get "date" d with
      | Some (JStr s) => s
      | _ => ""
      end
  | _ => ""
  end.

(** A record for the given date. *)
Definition dated (date : string) (e : json) : bool :=
  match e with
  | JDict d =>
      match dict_get "date" d with
      | Some (JStr s) => String.eqb s date
      | _ => false
      end
  | _ => false
  end.

Definition total_of (e : json) : option json :=
  match e with
  | JDict d => dict_get "total_lines" d
  | _ => None
  end.

(** A field of a record. *)
Definition field (key : string) (e : json) : option json :=
  match e with
  | JDict d => dict_get key d
  | _ => None
  end.

(** The record with its [total_lines] set. *)
Definition with_total (total_lines : Z) (e : json) : json :=
  match e with
  | JDict d => JDict (dict_set "total_lines" (JInt total_lines) d)
  | _ => e
  end.

Definition date_le (a b : json) : Prop :=
  String.leb (date_of a) (date_of b) = true.

Definition count_dated (date : string) (l : list json) : nat :=
  List.length (filter (dated date) l).



Definition holds_list (f : stats_file) : bool :=
  match f with
  | Holds (JList _) => true
  | _ => false
  end.

(** Events that touch [stats.json]. *)
Definition file_free (e : event) : bool :=
  match e with
  | ProbeStats | ReadStats | WriteStats _ => false
  | _ => true
  end.

(** A computation that leaves the file alone: it only adds events that do
    not touch it. *)
Definition quiet {A : Type} (m : M A) : Prop :=
  forall E s, exists evs,
    snd (m E s) = {| trace := trace s ++ evs; stats := stats s |}
    /\ forallb file_free evs = true.

(** A field that is absent, [null] or the empty string. *)
Definition missing_or_empty (v : option json) : bool :=
  match v with
  | None | Some JNull | Some (JStr EmptyString) => true
  | Some _ => false
  end.

(** The owner of a descriptor is an object when the descriptor has one. *)
Definition owner_is_object (d : pydict) : bool :=
  match dict_get "owner" d with
  | None | Some (JDict _) => true
  | Some _ => false
  end.

Definition login_of (d : pydict) : option json :=
  match dict_get "owner" d with
  | Some (JDict o) => dict_get "login" o
  | _ => None
  end.

(** ** Vocabulary of the proofs *)

Definition json_of_bytes (langs : list (string * Z)) : pydict :=
  map (fun kv => (fst kv, JInt (snd kv))) langs.

(** The service answers every request for [r] with 202 (still computing). *)
Definition still_computing (E : env) (r : request) : Prop :=
  forall h, exists b, http E h r = Response 202 b.

(** [k] attempts followed by a wait, then the last attempt. *)
Fixpoint polling_trace (r : request) (backoff_seconds : Z) (k : nat) : list event :=
  match k with
  | O => [Get r; Print Warn]
  | S k' =>
      Get r :: Print Info :: Sleep backoff_seconds
        :: polling_trace r backoff_seconds k'
  end.

Definition is_get (e : event) : bool :=
  match e with Get _ => true | _ => false end.

(** The stable sort of [sort_by_date], on entries instead of keyed pairs. *)
Fixpoint insert_entry (x : json) (l : list json) : list json :=
  match l with
  | [] => [x]
  | y :: l' =>
      if String.ltb (date_of y) (date_of x) then y :: insert_entry x l'
      else x :: y :: l'
  end.

Fixpoint sort_entries (l : list json) : list json :=
  match l with
  | [] => []
  | x :: l' => insert_entry x (sort_entries l')
  end.

Definition decorate (l : list json) : list (string * json) :=
  map (fun e => (date_of e, e)) l.

(** The list the merge hands to the sort: today's first record overwritten
    where it stands, or a new record at the end. *)
Inductive merged_from (today : string) (total : Z) (existing : list json)
  : list json -> Prop :=
| merged_overwrite pre e post :
    existing = pre ++ e :: post ->
    existsb (dated today) pre = false ->
    dated today e = true ->
    merged_from today total existing (pre ++ with_total total e :: post)
| merged_append :
    existsb (dated today) existing = false ->
    merged_from today total existing (existing ++ [new_record today total]).

(** Every value a computation returns satisfies [P]. *)
Definition returns {A : Type} (m : M A) (P : A -> Prop) : Prop :=
  forall E s a s', m E s = (Ok a, s') -> P a.

(** A repository descriptor of the listing: an object whose owner, when it
    has one, is an object. *)
Definition descriptor (r : json) : bool :=
  match r with
  | JDict d => owner_is_object d
  | _ => false
  end.

Definition int_valued (kv : string * json) : bool :=
  match snd kv with
  | JInt _ => true
  | _ => false
  end.

(** An answer of the service in normal operation: the request is answered,
    and a 200 carries JSON of the documented shape, that is a page of
    descriptors (or an empty page), weekly samples, byte counts. *)
Definition typed_answer (r : request) (o : http_outcome) : bool :=
  match o with
  | ConnectionFailed => false
  | Response st b =>
      if st =? 200 then
        match b with
        | None => false
        | Some j =>
            match r with
            | ListRepos _ =>
                negb (truthy j)
                || match j with JList l => forallb descriptor l | _ => false end
            | CodeFrequency _ _ =>
                match j with JList l => forallb sample_or_malformed l | _ => true end
            | Languages _ _ =>
                match j with JDict d => forallb int_valued d | _ => true end
            end
        end
      else true
  end.

Definition normal_operation (E : env) : Prop :=
  forall h r, typed_answer r (http E h r) = true.

(** A store that is absent, unreadable, not a list, or a list of records. *)
Definition store_typed (f : stats_file) : bool :=
  match f with
  | Holds (JList l) => forallb well_dated l
  | _ => true
  end.

(** In environment [E] the computation returns, with a value in [Q]. *)
Definition yields {A : Type} (E : env) (m : M A) (Q : A -> Prop) : Prop :=
  forall s, exists a s', m E s = (Ok a, s') /\ Q a.

(** In environment [E] every value the computation returns is in [Q]. *)
Definition returns_in {A : Type} (E : env) (m : M A) (Q : A -> Prop) : Prop :=
  forall s a s', m E s = (Ok a, s') -> Q a.

(** ** Concrete environments *)

(** A [str] -> [int] conversion for plain decimal numerals. *)
Definition plain_decimal (s : string) : option Z :=
  option_map Z.of_int (DecimalString.NilZero.int_of_string s).

Definition record (date : string) (total_lines : Z) : json :=
  JDict [("date", JStr date); ("total_lines", JInt total_lines)].

Definition offline : env :=
  {| http := fun _ _ => ConnectionFailed;
     today := "2024-01-01";
     has_token := true;
     int_of_str := plain_decimal;
     disk := fun _ _ => Written |}.

(** A service that never finishes computing. *)
Definition always_202 : env :=
  {| http := fun _ _ => Response 202 None;
     today := "2024-01-01";
     has_token := true;
     int_of_str := plain_decimal;
     disk := fun _ _ => Written |}.

(** A descriptor without an owner. *)
Definition ownerless : pydict :=
  [("full_name", JStr "ghost/repo"); ("name", JStr "repo"); ("fork", JBool false)].

Definition octo_repo : json :=
  JDict [("full_name", JStr "octo/repo"); ("name", JStr "repo");
         ("owner", JDict [("login", JStr "octo")]); ("fork", JBool false)].

(** One repository, answering every weekly request with [samples]. *)
Definition one_repo (samples : list json) : env :=
  {| http := fun _ r =>
       match r with
       | ListRepos page =>
           Response 200 (Some (JList (if page =? 1 then [octo_repo] else [])))
       | CodeFrequency _ _ => Response 200 (Some (JList samples))
       | Languages _ _ => Response 404 None
       end;
     today := "2024-01-01";
     has_token := false;
     int_of_str := plain_decimal;
     disk := fun _ _ => Written |}.

(** A week with more lines removed than added. *)
Definition shrinking : env :=
  one_repo [JList [JInt 1704067200; JInt 10; JInt 500]].

Definition fresh : state := {| trace := []; stats := Missing |}.

(** A weekly sample of four items. *)
Definition four_items : json :=
  JList [JInt 1704067200; JInt 120; JInt (-30); JInt 0].

(** A descriptor whose owner is [null]. *)
Definition null_owner : pydict :=
  [("full_name", JStr "ghost/repo"); ("name", JStr "repo"); ("owner", JNull);
   ("fork", JBool false)].

(** One repository is listed; the connection fails at its weekly
    statistics. *)
Definition dropped_connection : env :=
  {| http := fun _ r =>
       match r with
       | ListRepos page =>
           Response 200 (Some (JList (if page =? 1 then [octo_repo] else [])))
       | _ => ConnectionFailed
       end;
     today := "2024-01-01";
     has_token := true;
     int_of_str := plain_decimal;
     disk := fun _ _ => Written |}.

(** Every write of the records succeeds. *)
Definition writable (E : env) : Prop := forall h data, disk E h data = Written.

Definition two_weeks : list json :=
  [JList [JInt 1704067200; JInt 120; JInt (-30)];
   JList [JInt 1704672000; JInt 40; JInt (-10)]].
(** ** Vocabulary of the further properties *)

Definition is_object (r : json) : bool :=
  match r with
  | JDict _ => true
  | _ => false
  end.

(** A descriptor the listing drops: its [fork] is there and true. *)
Definition is_fork (r : json) : bool :=
  match r with
  | JDict d =>
      match dict_get "fork" d with
      | Some v => truthy v
      | None => false
      end
  | _ => false
  end.

(** The events a computation added to the trace. *)
Definition events_since (s s' : state) : list event :=
  skipn (List.length (trace s)) (trace s').

Definition gets (evs : list event) : nat := List.length (filter is_get evs).

(** The seconds slept. *)
Definition slept (evs : list event) : Z :=
  fold_right (fun e acc => match e with Sleep z => z + acc | _ => acc end) 0 evs.

Definition is_write (e : event) : bool :=
  match e with WriteStats _ => true | _ => false end.

(** The requests for [n] pages of the listing from page [first] on. *)
Definition page_requests (first : Z) (n : nat) : list event :=
  map (fun i => Get (ListRepos (first + Z.of_nat i))) (seq 0 n).

(** An answer that ends the paging without an exception: a status other
    than 200, or a 200 whose body is empty, null or otherwise false. *)
Definition ends_listing (o : http_outcome) : bool :=
  match o with
  | ConnectionFailed => false
  | Response st b =>
      if st =? 200 then
        match b with
        | Some j => negb (truthy j)
        | None => false
        end
      else true
  end.

(** The service has [pages], each with an item, and then stops. *)
Definition serves_pages (E : env) (pages : list (list json)) : Prop :=
  (forall h i, (i < List.length pages)%nat ->
     http E h (ListRepos (1 + Z.of_nat i))
     = Response 200 (Some (JList (nth i pages []))))
  /\ (forall h, ends_listing
                  (http E h (ListRepos (1 + Z.of_nat (List.length pages))))
                = true).

(** Every page of the listing has an item: there is no last page. *)
Definition endless_listing (E : env) : Prop :=
  forall h page, exists x l,
    http E h (ListRepos page) = Response 200 (Some (JList (x :: l))).

Definition forked_repo : json :=
  JDict [("full_name", JStr "octo/copy"); ("name", JStr "copy");
         ("owner", JDict [("login", JStr "octo")]); ("fork", JBool true)].

(** Two pages of repositories, then an error page. *)
Definition two_pages : env :=
  {| http := fun _ r =>
       match r with
       | ListRepos page =>
           if page =? 1 then Response 200 (Some (JList [octo_repo; forked_repo]))
           else if page =? 2 then Response 200 (Some (JList [octo_repo]))
           else Response 500 None
       | _ => Response 404 None
       end;
     today := "2024-01-01";
     has_token := true;
     int_of_str := plain_decimal;
     disk := fun _ _ => Written |}.

(** A listing that repeats one page for ever. *)
Definition same_page_for_ever : env :=
  {| http := fun _ r =>
       match r with
       | ListRepos _ => Response 200 (Some (JList [octo_repo]))
       | _ => Response 404 None
       end;
     today := "2024-01-01";
     has_token := true;
     int_of_str := plain_decimal;
     disk := fun _ _ => Written |}.

(** [k] rounds of the retry loop that found the statistics still being
    computed: a request, a line, a wait. *)
Fixpoint waiting_rounds (r : request) (backoff_seconds : Z) (k : nat) : list event :=
  match k with
  | O => []
  | S k' =>
      Get r :: Print Info :: Sleep backoff_seconds
        :: waiting_rounds r backoff_seconds k'
  end.

(** The service answers 202 to the next [k] requests and then delivers
    [samples]; requests are counted over the whole history. *)
Definition ready_after (E : env) (r : request) (seen k : nat) (samples : list json)
  : Prop :=
  (forall h, (seen <= gets h < seen + k)%nat ->
     exists b, http E h r = Response 202 b)
  /\ (forall h, gets h = (seen + k)%nat ->
        http E h r = Response 200 (Some (JList samples))).

(** The computation adds at most [g] requests and [z] seconds of sleep. *)
Definition costs {A : Type} (m : M A) (g : nat) (z : Z) : Prop :=
  forall E s, exists evs,
    trace (snd (m E s)) = trace s ++ evs
    /\ (gets evs <= g)%nat
    /\ 0 <= slept evs <= z.

(** Ready at the third request. *)
Definition ready_at_third : env :=
  {| http := fun h r =>
       match r with
       | CodeFrequency _ _ =>
           if (gets h <? 2)%nat then Response 202 None
           else Response 200 (Some (JList two_weeks))
       | _ => Response 404 None
       end;
     today := "2024-01-01";
     has_token := true;
     int_of_str := plain_decimal;
     disk := fun _ _ => Written |}.

(** The records a run starts from: the list the file holds, or none. *)
Definition loaded (f : stats_file) : list json :=
  match f with
  | Holds (JList l) => l
  | _ => []
  end.

(** An entry sorted under the date [d]. *)
Definition sorted_under (d : string) (e : json) : bool := String.eqb (date_of e) d.

(** What a first answer other than 202 makes [fetch_repo_code_frequency]
    return: the samples of a 200 that carries a list, the empty list for
    204, [ValueError] for a 200 whose body is not JSON, and no result for
    anything else. *)
Definition settled (st : Z) (b : option json) : outcome (option (list json)) :=
  if st =? 204 then Ok (Some [])
  else if st =? 200 then
    match b with
    | Some (JList samples) => Ok (Some samples)
    | Some _ => Ok None
    | None => Raise ValueError
    end
  else Ok None.

(** A listing refused at the first page. *)
Definition unauthorized : env :=
  {| http := fun _ _ => Response 401 None;
     today := "2024-01-01";
     has_token := false;
     int_of_str := plain_decimal;
     disk := fun _ _ => Written |}.

(** * Properties *)

(** ** The weekly summation *)

Lemma sum_weeks_skip E week rest acc :
  well_formed week = false ->
  sum_weeks E (week :: rest) acc = sum_weeks E rest acc.
Proof.
  destruct week as [| | | | |items|]; try reflexivity.
  unfold well_formed. intros H. apply Nat.leb_gt in H.
  cbn [sum_weeks].
  destruct (Nat.ltb_spec (List.length items) 3) as [_|H']; [reflexivity|lia].
Qed.

Lemma sum_weeks_triple E t additions deletions rest acc :
  sum_weeks E (JList [t; JInt additions; JInt deletions] :: rest) acc
  = sum_weeks E rest (acc + (additions - deletions)).
Proof. reflexivity. Qed.

Lemma sum_weeks_acc E freq :
  forallb sample_or_malformed freq = true ->
  forall acc, sum_weeks E freq acc = Ok (acc + net_sum freq).
Proof.
  induction freq as [|week rest IH]; intros Hall acc.
  - simpl. f_equal. unfold net_sum. simpl. lia.
  - simpl in Hall. apply andb_prop in Hall as [Hw Hrest].
    destruct (well_formed week) eqn:Hwf.
    + assert (exists t a d, week = JList [t; JInt a; JInt d]) as (t & a & d & ->).
      { destruct week as [| | | | |items|]; try discriminate.
        unfold sample_or_malformed in Hw.
        destruct items as [|t [|[| |a| | | |] [|[| |d| | | |] [|x more]]]];
          try (rewrite Hwf in Hw; discriminate Hw).
        now exists t, a, d. }
      rewrite sum_weeks_triple, (IH Hrest). f_equal.
      unfold net_sum. simpl. lia.
    + rewrite (sum_weeks_skip _ _ _ _ Hwf), (IH Hrest). f_equal.
      unfold net_sum. simpl. now rewrite Hwf.
Qed.

(** ** Running the monad *)

Lemma bind_ok {A B} (m : M A) (k : A -> M B) E s a s' :
  m E s = (Ok a, s') -> bind m k E s = k a E s'.
Proof. unfold bind. now intros ->. Qed.

Lemma bind_fail {A B} (m : M A) (k : A -> M B) E s f s' :
  m E s = (Fail f, s') -> bind m k E s = (Fail f, s').
Proof. unfold bind. now intros ->. Qed.

Lemma bind_print {B} l (k : unit -> M B) E s :
  bind (print l) k E s = k tt E (log (Print l) s).
Proof. reflexivity. Qed.

Lemma bind_sleep {B} z (k : unit -> M B) E s :
  bind (sleep z) k E s = k tt E (log (Sleep z) s).
Proof. reflexivity. Qed.

Lemma bind_ret {A B} (a : A) (k : A -> M B) E s : bind (ret a) k E s = k a E s.
Proof. reflexivity. Qed.

Lemma bind_lift {A B} (o : env -> outcome A) (k : A -> M B) E s :
  bind (lift o) k E s
  = match o E with Ok a => k a E s | Fail f => (Fail f, s) end.
Proof. unfold bind, lift. now destruct (o E). Qed.

Lemma bind_session_get {B} r (k : response -> M B) E s st b :
  http E (trace s) r = Response st b ->
  bind (session_get r) k E s
  = k {| status_code := st; body := b |} E (log (Get r) s).
Proof. unfold bind, session_get. now intros ->. Qed.

Lemma default_attempts :
  py_range 1 (default_retries + 1) = [1; 2; 3; 4; 5].
Proof. reflexivity. Qed.

(** A repository whose weekly samples arrive at the first request. *)
Lemma repo_estimate_weekly E s owner name freq :
  http E (trace s) (CodeFrequency owner name) = Response 200 (Some (JList freq)) ->
  repo_estimate owner name E s
  = (sum_weeks E freq 0, log (Get (CodeFrequency owner name)) s).
Proof.
  intros H. unfold repo_estimate, fetch_repo_code_frequency.
  rewrite default_attempts. cbn [code_frequency_attempts].
  unfold bind at 1. unfold bind at 1. unfold session_get. rewrite H.
  cbn. reflexivity.
Qed.

(** One round of the loop over the repositories, for a repository that is
    counted. *)
Lemma total_over_counted E s d o owner name rest total :
  dict_get "owner" d = Some (JDict o) ->
  dict_get "login" o = Some owner ->
  dict_get "name" d = Some name ->
  truthy owner = true -> truthy name = true ->
  total_over (JDict d :: rest) total E s
  = match repo_estimate owner name E (log (Print Info) s) with
    | (Ok repo_total, s') =>
        total_over rest (total + Z.max repo_total 0) E (log (Print Info) s')
    | (Fail f, s') => (Fail f, s')
    end.
Proof.
  intros Ho Hl Hn To Tn. cbn [total_over]. unfold bind at 1. unfold count_repo.
  rewrite !bind_lift. cbn [py_get]. rewrite Ho. cbn [py_get]. rewrite !bind_lift.
  cbn [py_get]. rewrite Hl, Hn, To, Tn. cbn [negb orb].
  rewrite bind_print. unfold bind at 1.
  destruct (repo_estimate owner name E (log (Print Info) s)) as [[rt|f] s']; reflexivity.
Qed.

(** Where every well-formed sample is a triple of integers, the estimate
    of a repository is the sum of (additions - deletions) over the
    well-formed samples, every other entry being ignored; what is added to
    the running total is that sum clamped at zero; the samples
    [[t0, 120, -30], [t1, 40, -10]] give 200. *)
Theorem weekly_estimate_is_clamped_net_sum (E : env) (freq : list json)
    (Hsamples : forallb sample_or_malformed freq = true) :
  sum_weeks E freq 0 = Ok (net_sum freq)
  /\ (forall d o owner name rest total s,
        dict_get "owner" d = Some (JDict o) ->
        dict_get "login" o = Some owner ->
        dict_get "name" d = Some name ->
        truthy owner = true -> truthy name = true ->
        http E (trace s ++ [Print Info]) (CodeFrequency owner name)
          = Response 200 (Some (JList freq)) ->
        total_over (JDict d :: rest) total E s
        = total_over rest (total + Z.max (net_sum freq) 0) E
            (log (Print Info)
               (log (Get (CodeFrequency owner name)) (log (Print Info) s))))
  /\ sum_weeks E two_weeks 0 = Ok 200.
Proof.
  split; [|split].
  - rewrite (sum_weeks_acc E freq Hsamples 0). reflexivity.
  - intros d o owner name rest total s Ho Hl Hn To Tn Hhttp.
    rewrite (total_over_counted E s d o owner name rest total Ho Hl Hn To Tn).
    rewrite (repo_estimate_weekly E (log (Print Info) s) owner name freq Hhttp).
    rewrite (sum_weeks_acc E freq Hsamples 0). reflexivity.
  - reflexivity.
Qed.

Lemma weekly_estimate_witness :
  forallb sample_or_malformed two_weeks = true
  /\ sum_weeks offline two_weeks 0 = Ok 200.
Proof.
  split; [reflexivity|].
  exact (proj1 (weekly_estimate_is_clamped_net_sum offline two_weeks eq_refl)).
Defined.

(** C1. The estimate is not the sum over the well-formed samples for every
    list: a sample of four items or more is well formed and counts
    (additions - deletions) in that sum, but the summation raises
    [ValueError] at the unpacking of line 149, so that no estimate is
    produced and nothing is added to the total; a run whose only
    repository has the sample [[t, 120, -30, 0]] ends there, where the sum
    over the well-formed samples is 150. *)
Theorem long_sample_breaks_estimate (E : env) (t x : json) (additions deletions : Z)
    (more rest : list json) :
  well_formed (JList (t :: JInt additions :: JInt deletions :: x :: more)) = true
  /\ net_sum [JList (t :: JInt additions :: JInt deletions :: x :: more)]
     = additions - deletions
  /\ sum_weeks E (JList (t :: JInt additions :: JInt deletions :: x :: more) :: rest) 0
     = Raise ValueError
  /\ net_sum [four_items] = 150
  /\ fst (compute_total_lines [octo_repo] (one_repo [four_items]) fresh)
     = Raise ValueError.
Proof.
  repeat split. unfold net_sum. cbn [filter well_formed map net_change fold_right].
  destruct (3 <=? List.length (t :: JInt additions :: JInt deletions :: x :: more))%nat
    eqn:Hlen; [cbn; lia|discriminate Hlen].
Qed.

(** C3. A sample of more than three items passes the length test of line
    147 and then fails the three-way unpacking of line 149: the summation
    stops with [ValueError] whatever the other samples are. *)
Theorem long_sample_aborts_sum (E : env) (t a d x : json) (more rest : list json)
    (acc : Z) :
  well_formed (JList (t :: a :: d :: x :: more)) = true
  /\ sum_weeks E (JList (t :: a :: d :: x :: more) :: rest) acc = Raise ValueError.
Proof. split; reflexivity. Qed.

(** ** The estimate from language byte counts *)




Lemma int_values_of_bytes E (langs : list (string * Z)) :
  int_values E (json_of_bytes langs) = Ok langs.
Proof.
  induction langs as [|[k v] langs IH]; [reflexivity|].
  change (json_of_bytes ((k, v) :: langs)) with ((k, JInt v) :: json_of_bytes langs).
  cbn [int_values py_int obind]. now rewrite IH.
Qed.




(** ** The retry loop of the weekly statistics *)

Lemma log_trace e s evs :
  {| trace := trace (log e s) ++ evs; stats := stats (log e s) |}
  = {| trace := trace s ++ e :: evs; stats := stats s |}.
Proof. unfold log. cbn [trace stats]. now rewrite <- app_assoc. Qed.

Lemma attempts_all_202 E owner name retries backoff_seconds early :
  still_computing E (CodeFrequency owner name) ->
  Forall (fun attempt => attempt <> retries) early ->
  forall s,
    code_frequency_attempts owner name retries backoff_seconds
      (early ++ [retries]) E s
    = (Ok None,
       {| trace := trace s
                   ++ polling_trace (CodeFrequency owner name) backoff_seconds
                        (List.length early);
          stats := stats s |}).
Proof.
  intros Hbusy. induction 1 as [|attempt early Hne _ IH]; intros s.
  - cbn [app code_frequency_attempts List.length polling_trace].
    destruct (Hbusy (trace s)) as [b Hb].
    rewrite (bind_session_get _ _ E s 202 b Hb). cbn [status_code].
    rewrite Z.eqb_refl, Z.eqb_refl, bind_print. cbn [ret].
    now rewrite <- log_trace, <- log_trace, app_nil_r.
  - cbn [app code_frequency_attempts List.length polling_trace].
    destruct (Hbusy (trace s)) as [b Hb].
    rewrite (bind_session_get _ _ E s 202 b Hb). cbn [status_code].
    rewrite Z.eqb_refl. apply Z.eqb_neq in Hne. rewrite Hne.
    rewrite bind_print, bind_sleep, IH.
    now rewrite !log_trace.
Qed.

(** C4. When the service answers 202 to every request for the weekly
    statistics, [fetch_repo_code_frequency] sends exactly five requests,
    sleeps 8 seconds between consecutive ones and not after the last, and
    returns [None], which is not the empty list. *)
Theorem still_computing_gives_up_after_five (E : env) (s : state) (owner name : json)
    (Hbusy : still_computing E (CodeFrequency owner name)) :
  let r := CodeFrequency owner name in
  let run :=
    fetch_repo_code_frequency owner name default_retries default_backoff_seconds E s in
  fst run = Ok None
  /\ trace (snd run)
     = trace s ++ [Get r; Print Info; Sleep 8;
                   Get r; Print Info; Sleep 8;
                   Get r; Print Info; Sleep 8;
                   Get r; Print Info; Sleep 8;
                   Get r; Print Warn]
  /\ List.length (filter is_get (skipn (List.length (trace s)) (trace (snd run))))
     = 5%nat
  /\ stats (snd run) = stats s
  /\ Ok (@None (list json)) <> Ok (Some []).
Proof.
  intros r run. subst run. unfold fetch_repo_code_frequency.
  rewrite default_attempts.
  change [1; 2; 3; 4; 5] with ([1; 2; 3; 4] ++ [default_retries]).
  rewrite (attempts_all_202 E owner name default_retries default_backoff_seconds
             [1; 2; 3; 4] Hbusy).
  - cbn [fst snd trace stats]. repeat split; try discriminate.
    rewrite skipn_app, skipn_all, Nat.sub_diag. reflexivity.
  - repeat constructor; discriminate.
Qed.

Lemma still_computing_witness :
  still_computing always_202 (CodeFrequency (JStr "octo") (JStr "repo"))
  /\ fst (fetch_repo_code_frequency (JStr "octo") (JStr "repo")
            default_retries default_backoff_seconds always_202
            fresh) = Ok None.
Proof.
  assert (H : still_computing always_202 (CodeFrequency (JStr "octo") (JStr "repo"))).
  { intros h. exists None. reflexivity. }
  split; [exact H|].
  exact (proj1 (still_computing_gives_up_after_five always_202
                  fresh (JStr "octo") (JStr "repo") H)).
Defined.

(** ** The order on dates *)

Lemma ascii_compare_lt_trans a b c :
  Ascii.compare a b = Lt -> Ascii.compare b c = Lt -> Ascii.compare a c = Lt.
Proof. unfold Ascii.compare. rewrite !N.compare_lt_iff. lia. Qed.

Lemma string_compare_not_gt_trans : forall s1 s2 s3,
  String.compare s1 s2 <> Gt -> String.compare s2 s3 <> Gt ->
  String.compare s1 s3 <> Gt.
Proof.
  induction s1 as [|a s1 IH]; intros [|b s2] [|c s3]; simpl; try congruence.
  destruct (Ascii.compare a b) eqn:Hab; try congruence;
    destruct (Ascii.compare b c) eqn:Hbc; try congruence; intros H1 H2.
  - apply Ascii.compare_eq_iff in Hab, Hbc. subst.
    assert (Ascii.compare c c = Eq) as ->
      by (unfold Ascii.compare; apply N.compare_refl).
    eauto.
  - apply Ascii.compare_eq_iff in Hab. subst. now rewrite Hbc.
  - apply Ascii.compare_eq_iff in Hbc. subst. now rewrite Hab.
  - now rewrite (ascii_compare_lt_trans _ _ _ Hab Hbc).
Qed.

Lemma string_leb_trans s1 s2 s3 :
  String.leb s1 s2 = true -> String.leb s2 s3 = true -> String.leb s1 s3 = true.
Proof.
  unfold String.leb. intros H1 H2.
  pose proof (string_compare_not_gt_trans s1 s2 s3) as H.
  destruct (String.compare s1 s2), (String.compare s2 s3), (String.compare s1 s3);
    try reflexivity; try discriminate; exfalso; apply H; congruence.
Qed.

Lemma string_ltb_leb s1 s2 : String.ltb s1 s2 = true -> String.leb s1 s2 = true.
Proof. unfold String.ltb, String.leb. now destruct (String.compare s1 s2). Qed.

Lemma string_nltb_leb s1 s2 : String.ltb s1 s2 = false -> String.leb s2 s1 = true.
Proof.
  unfold String.ltb, String.leb. rewrite (String.compare_antisym s1 s2).
  now destruct (String.compare s2 s1).
Qed.

Lemma string_leb_nltb s1 s2 : String.leb s1 s2 = true -> String.ltb s2 s1 = false.
Proof.
  unfold String.ltb, String.leb. rewrite (String.compare_antisym s1 s2).
  now destruct (String.compare s2 s1).
Qed.

Lemma string_ltb_irrefl s : String.ltb s s = false.
Proof. apply string_leb_nltb. now destruct (String.leb_total s s). Qed.

(** ** Sorting the entries *)

Lemma insert_keyed_decorate x l :
  insert_keyed (date_of x, x) (decorate l) = decorate (insert_entry x l).
Proof.
  induction l as [|y l IH]; [reflexivity|].
  cbn [decorate map insert_keyed insert_entry fst].
  destruct (String.ltb (date_of y) (date_of x)); [|reflexivity].
  cbn [map]. f_equal. exact IH.
Qed.

Lemma sort_keyed_decorate l : sort_keyed (decorate l) = decorate (sort_entries l).
Proof.
  induction l as [|x l IH]; [reflexivity|].
  cbn [decorate map sort_keyed sort_entries]. fold (decorate l).
  now rewrite IH, insert_keyed_decorate.
Qed.

Lemma map_snd_decorate l : map snd (decorate l) = l.
Proof. unfold decorate. rewrite map_map. apply map_id. Qed.

Lemma date_keys_well_dated l :
  forallb well_dated l = true ->
  date_keys l = Ok (map (fun e => (JStr (date_of e), e)) l)
  /\ string_keys (map (fun e => (JStr (date_of e), e)) l) = Some (decorate l).
Proof.
  induction l as [|e l IH]; [now split|].
  cbn [forallb]. intros H. apply andb_prop in H as [He Hl].
  destruct (IH Hl) as [IH1 IH2]. cbn [date_keys map string_keys].
  rewrite IH1, IH2. split; [|reflexivity].
  destruct e as [| | | | | |d]; try discriminate He.
  cbn [py_get obind date_of]. cbn [well_dated] in He.
  destruct (dict_get "date" d) as [[| | | | s| |]|]; try discriminate He; reflexivity.
Qed.

Lemma sort_by_date_well_dated l :
  forallb well_dated l = true -> sort_by_date l = Ok (sort_entries l).
Proof.
  intros H. unfold sort_by_date.
  destruct (date_keys_well_dated l H) as [-> Hs]. cbn [obind]. rewrite Hs.
  now rewrite sort_keyed_decorate, map_snd_decorate.
Qed.

Lemma insert_entry_perm x l : Permutation (insert_entry x l) (x :: l).
Proof.
  induction l as [|y l IH]; [reflexivity|].
  cbn [insert_entry]. destruct (String.ltb (date_of y) (date_of x)); [|reflexivity].
  rewrite IH. apply perm_swap.
Qed.

Lemma sort_entries_perm l : Permutation (sort_entries l) l.
Proof.
  induction l as [|x l IH]; [reflexivity|].
  cbn [sort_entries]. rewrite insert_entry_perm. now constructor.
Qed.

Lemma insert_entry_hd a x l :
  date_le a x -> HdRel date_le a l -> HdRel date_le a (insert_entry x l).
Proof.
  intros Hax Hal. destruct l as [|y l]; [now constructor|].
  cbn [insert_entry]. destruct (String.ltb (date_of y) (date_of x)).
  - constructor. now inversion Hal.
  - now constructor.
Qed.

Lemma insert_entry_sorted x l :
  Sorted date_le l -> Sorted date_le (insert_entry x l).
Proof.
  induction 1 as [|y l Hl IH Hy]; [repeat constructor|].
  cbn [insert_entry]. destruct (String.ltb (date_of y) (date_of x)) eqn:Hlt.
  - constructor; [exact IH|].
    apply insert_entry_hd; [|exact Hy]. now apply string_ltb_leb.
  - constructor; [now constructor|]. constructor. now apply string_nltb_leb.
Qed.

Lemma sort_entries_sorted l : Sorted date_le (sort_entries l).
Proof.
  induction l as [|x l IH]; [constructor|]. now apply insert_entry_sorted.
Qed.

Lemma date_le_trans : Relations_1.Transitive date_le.
Proof. intros a b c. apply string_leb_trans. Qed.

Lemma sort_entries_strongly_sorted l : StronglySorted date_le (sort_entries l).
Proof. apply Sorted_StronglySorted; [exact date_le_trans|apply sort_entries_sorted]. Qed.

(** Sorting a sorted list changes nothing. *)
Lemma sort_entries_fixed l : Sorted date_le l -> sort_entries l = l.
Proof.
  induction 1 as [|x l Hl IH Hx]; [reflexivity|].
  cbn [sort_entries]. rewrite IH. destruct Hx as [|y l Hxy]; [reflexivity|].
  cbn [insert_entry]. now rewrite (string_leb_nltb _ _ Hxy).
Qed.

Lemma dated_date_of date e : dated date e = true -> date_of e = date.
Proof.
  destruct e as [| | | | | |d]; try discriminate. cbn [dated date_of].
  destruct (dict_get "date" d) as [[| | | |s| |]|]; try discriminate.
  apply String.eqb_eq.
Qed.

(** Stability: the first record of a date is the same before and after. *)
Lemma find_insert_entry date x l :
  find (dated date) (insert_entry x l) = find (dated date) (x :: l).
Proof.
  induction l as [|y l IH]; [reflexivity|].
  cbn [insert_entry]. destruct (String.ltb (date_of y) (date_of x)) eqn:Hlt;
    [|reflexivity].
  cbn [find] in *. rewrite IH.
  destruct (dated date x) eqn:Hx, (dated date y) eqn:Hy; try reflexivity.
  apply dated_date_of in Hx, Hy. rewrite Hx, Hy, string_ltb_irrefl in Hlt.
  discriminate.
Qed.

Lemma find_sort_entries date l :
  find (dated date) (sort_entries l) = find (dated date) l.
Proof.
  induction l as [|x l IH]; [reflexivity|].
  cbn [sort_entries]. rewrite find_insert_entry. cbn [find]. now rewrite IH.
Qed.

Lemma count_dated_perm date l l' :
  Permutation l l' -> count_dated date l = count_dated date l'.
Proof.
  unfold count_dated. induction 1 as [|x l l' _ IH|x y l|l l' l'' _ IH1 _ IH2].
  - reflexivity.
  - cbn [filter]. destruct (dated date x); cbn [List.length]; now rewrite IH.
  - cbn [filter]. destruct (dated date x), (dated date y); reflexivity.
  - now rewrite IH1.
Qed.

Lemma forallb_perm {A} (p : A -> bool) l l' :
  Permutation l l' -> forallb p l = true -> forallb p l' = true.
Proof.
  intros HP. rewrite !forallb_forall. intros H x Hx. apply H.
  now apply (Permutation_in _ (Permutation_sym HP)).
Qed.

(** ** Finding and overwriting today's record *)

Lemma dict_get_set_other k k' v d :
  k <> k' -> dict_get k (dict_set k' v d) = dict_get k d.
Proof.
  intros Hk. induction d as [|[k0 w] d IH]; cbn [dict_set dict_get].
  - apply String.eqb_neq in Hk. now rewrite String.eqb_sym, Hk.
  - destruct (String.eqb k0 k') eqn:Hk0; cbn [dict_get].
    + apply String.eqb_eq in Hk0. subst k0.
      apply String.eqb_neq in Hk. now rewrite String.eqb_sym, Hk.
    + now rewrite IH.
Qed.

Lemma dict_get_set_same k v d : dict_get k (dict_set k v d) = Some v.
Proof.
  induction d as [|[k0 w] d IH]; cbn [dict_set dict_get].
  - now rewrite String.eqb_refl.
  - destruct (String.eqb k0 k) eqn:Hk0; cbn [dict_get]; now rewrite Hk0.
Qed.

Lemma dict_set_twice k v d : dict_set k v (dict_set k v d) = dict_set k v d.
Proof.
  induction d as [|[k0 w] d IH]; cbn [dict_set].
  - now rewrite String.eqb_refl.
  - destruct (String.eqb k0 k) eqn:Hk0; cbn [dict_set]; rewrite Hk0;
      [reflexivity|now rewrite IH].
Qed.

Lemma with_total_twice total e : with_total total (with_total total e) = with_total total e.
Proof. destruct e; try reflexivity. cbn [with_total]. now rewrite dict_set_twice. Qed.

Lemma dated_with_total date total e : dated date (with_total total e) = dated date e.
Proof.
  destruct e; try reflexivity. cbn [with_total dated].
  now rewrite dict_get_set_other by discriminate.
Qed.

Lemma date_of_with_total total e : date_of (with_total total e) = date_of e.
Proof.
  destruct e; try reflexivity. cbn [with_total date_of].
  now rewrite dict_get_set_other by discriminate.
Qed.

Lemma well_dated_with_total total e : well_dated (with_total total e) = well_dated e.
Proof.
  destruct e; try reflexivity. cbn [with_total well_dated].
  now rewrite dict_get_set_other by discriminate.
Qed.

Lemma total_of_with_total total e :
  well_dated e = true -> total_of (with_total total e) = Some (JInt total).
Proof.
  destruct e; try discriminate. intros _. cbn [with_total total_of].
  apply dict_get_set_same.
Qed.

(** One round of the search loop on a record. *)
Lemma overwrite_today_cons today total e rest :
  well_dated e = true ->
  overwrite_today today total (e :: rest)
  = if dated today e then Ok (true, with_total total e :: rest)
    else obind (overwrite_today today total rest)
           (fun r => Ok (fst r, e :: snd r)).
Proof.
  destruct e as [| | | | | |d]; try discriminate. intros _.
  cbn [overwrite_today py_get obind dated with_total].
  destruct (dict_get "date" d) as [[| | | |s| |]|]; reflexivity.
Qed.

Lemma overwrite_today_absent today total l :
  forallb well_dated l = true ->
  existsb (dated today) l = false ->
  overwrite_today today total l = Ok (false, l).
Proof.
  induction l as [|e l IH]; [reflexivity|].
  cbn [forallb existsb]. intros Hw Hex.
  apply andb_prop in Hw as [He Hl]. apply orb_false_elim in Hex as [Hd Hex].
  rewrite (overwrite_today_cons _ _ _ _ He), Hd, (IH Hl Hex). reflexivity.
Qed.

Lemma overwrite_today_present today total l :
  forallb well_dated l = true ->
  existsb (dated today) l = true ->
  exists pre e post,
    l = pre ++ e :: post
    /\ existsb (dated today) pre = false
    /\ dated today e = true
    /\ overwrite_today today total l = Ok (true, pre ++ with_total total e :: post).
Proof.
  induction l as [|e l IH]; [discriminate|].
  cbn [forallb existsb]. intros Hw Hex. apply andb_prop in Hw as [He Hl].
  rewrite (overwrite_today_cons _ _ _ _ He).
  destruct (dated today e) eqn:Hd.
  - exists [], e, l. repeat split; assumption.
  - cbn [orb] in Hex. destruct (IH Hl Hex) as (pre & e' & post & -> & Hpre & He' & Hrun).
    exists (e :: pre), e', post. rewrite Hrun. cbn [existsb app obind fst snd].
    rewrite Hd. repeat split; assumption.
Qed.

(** Where the first record of the date already holds the total, the search
    loop leaves the list as it is. *)
Lemma overwrite_today_fixed today total l e :
  forallb well_dated l = true ->
  find (dated today) l = Some e ->
  with_total total e = e ->
  overwrite_today today total l = Ok (true, l).
Proof.
  induction l as [|x l IH]; [discriminate|].
  cbn [forallb find]. intros Hw Hfind Hfix. apply andb_prop in Hw as [Hx Hl].
  rewrite (overwrite_today_cons _ _ _ _ Hx).
  destruct (dated today x).
  - injection Hfind as ->. now rewrite Hfix.
  - now rewrite (IH Hl Hfind Hfix).
Qed.

Lemma find_absent_app {A} (p : A -> bool) pre x post :
  existsb p pre = false -> p x = true -> find p (pre ++ x :: post) = Some x.
Proof.
  induction pre as [|y pre IH]; cbn [existsb app find]; intros Hpre Hx.
  - now rewrite Hx.
  - apply orb_false_elim in Hpre as [-> Hpre]. now apply IH.
Qed.

Lemma count_dated_app date l l' :
  count_dated date (l ++ l') = (count_dated date l + count_dated date l')%nat.
Proof. unfold count_dated. now rewrite filter_app, length_app. Qed.

Lemma count_dated_absent date l :
  existsb (dated date) l = false -> count_dated date l = 0%nat.
Proof.
  unfold count_dated. induction l as [|x l IH]; [reflexivity|].
  cbn [existsb filter]. intros H. apply orb_false_elim in H as [-> H]. now apply IH.
Qed.

Lemma count_dated_cons date x l :
  count_dated date (x :: l)
  = ((if dated date x then 1 else 0) + count_dated date l)%nat.
Proof. unfold count_dated. cbn [filter]. now destruct (dated date x). Qed.

(** ** The merge *)

Lemma forallb_well_dated_overwrite total pre e post :
  forallb well_dated (pre ++ e :: post) = true ->
  forallb well_dated (pre ++ with_total total e :: post) = true.
Proof.
  rewrite !forallb_app. cbn [forallb]. now rewrite well_dated_with_total.
Qed.

Lemma upsert_well_dated today total existing :
  forallb well_dated existing = true ->
  exists l1,
    merged_from today total existing l1
    /\ forallb well_dated l1 = true
    /\ upsert existing today total = Ok (sort_entries l1).
Proof.
  intros Hw. unfold upsert. destruct (existsb (dated today) existing) eqn:Hex.
  - destruct (overwrite_today_present today total existing Hw Hex)
      as (pre & e & post & Heq & Hpre & He & Hrun).
    exists (pre ++ with_total total e :: post).
    assert (Hw1 : forallb well_dated (pre ++ with_total total e :: post) = true)
      by (apply forallb_well_dated_overwrite; now rewrite <- Heq).
    rewrite Hrun. cbn [obind fst snd]. repeat split.
    + now apply merged_overwrite.
    + exact Hw1.
    + now apply sort_by_date_well_dated.
  - exists (existing ++ [new_record today total]).
    assert (Hw1 : forallb well_dated (existing ++ [new_record today total]) = true)
      by (rewrite forallb_app, Hw; reflexivity).
    rewrite (overwrite_today_absent today total existing Hw Hex).
    cbn [obind fst snd]. repeat split.
    + now apply merged_append.
    + exact Hw1.
    + now apply sort_by_date_well_dated.
Qed.

Lemma dated_new_record today total : dated today (new_record today total) = true.
Proof. cbn. apply String.eqb_refl. Qed.

(** The first record of the date in the merged list holds the total. *)
Lemma merged_from_first today total existing l1 :
  forallb well_dated existing = true ->
  merged_from today total existing l1 ->
  exists e, find (dated today) l1 = Some e
            /\ with_total total e = e
            /\ total_of e = Some (JInt total).
Proof.
  intros Hw [pre e post Heq Hpre He|Hex].
  - exists (with_total total e). split; [|split].
    + apply find_absent_app; [exact Hpre|]. now rewrite dated_with_total.
    + apply with_total_twice.
    + apply total_of_with_total. rewrite Heq, forallb_app in Hw.
      apply andb_prop in Hw as [_ Hw]. cbn [forallb] in Hw.
      now apply andb_prop in Hw as [Hw _].
  - exists (new_record today total). split; [|split].
    + apply find_absent_app; [exact Hex|apply dated_new_record].
    + reflexivity.
    + reflexivity.
Qed.

Lemma merged_from_count today total existing l1 :
  merged_from today total existing l1 ->
  count_dated today l1 = Nat.max 1 (count_dated today existing).
Proof.
  intros [pre e post Heq Hpre He|Hex].
  - rewrite Heq, !count_dated_app, !count_dated_cons, dated_with_total, He. lia.
  - rewrite count_dated_app, (count_dated_absent _ _ Hex), count_dated_cons.
    now rewrite dated_new_record.
Qed.

Lemma merged_from_length today total existing l1 :
  merged_from today total existing l1 ->
  List.length l1
  = if existsb (dated today) existing then List.length existing
    else S (List.length existing).
Proof.
  intros [pre e post Heq Hpre He|Hex].
  - rewrite Heq, existsb_app, Hpre. cbn [existsb orb]. rewrite He.
    rewrite !length_app. reflexivity.
  - rewrite Hex, length_app. cbn [List.length]. lia.
Qed.

Lemma find_some_in {A} (p : A -> bool) l x :
  find p l = Some x -> In x l /\ p x = true.
Proof. apply find_some. Qed.

Lemma field_with_total total key e :
  key <> "total_lines" -> field key (with_total total e) = field key e.
Proof.
  intros Hkey. destruct e; try reflexivity. cbn [with_total field].
  now apply dict_get_set_other.
Qed.

(** C5. On a list of records, when a record has the date the merge
    overwrites [total_lines] of the first such record where it stands, the
    other fields of the record and the other records being kept and
    nothing being appended; when no record has the date it appends the
    record [{date, total_lines}].  In both cases the list it returns has a
    record of the date holding the total and is sorted ascending by date,
    whatever the order was. *)
Theorem upsert_overwrites_or_appends_then_sorts (existing : list json)
    (date : string) (total : Z)
    (Hrecords : forallb well_dated existing = true) :
  exists merged,
    upsert existing date total = Ok merged
    /\ StronglySorted date_le merged
    /\ (exists e, In e merged /\ dated date e = true
                  /\ total_of e = Some (JInt total))
    /\ (existsb (dated date) existing = true ->
        List.length merged = List.length existing
        /\ exists pre e post,
             existing = pre ++ e :: post
             /\ existsb (dated date) pre = false
             /\ dated date e = true
             /\ Permutation merged (pre ++ with_total total e :: post)
             /\ total_of (with_total total e) = Some (JInt total)
             /\ (forall key, key <> "total_lines" ->
                   field key (with_total total e) = field key e))
    /\ (existsb (dated date) existing = false ->
        Permutation merged
          (existing ++ [JDict [("date", JStr date); ("total_lines", JInt total)]])).
Proof.
  destruct (upsert_well_dated date total existing Hrecords)
    as (l1 & Hfrom & Hw1 & Hrun).
  exists (sort_entries l1). split; [exact Hrun|].
  split; [apply sort_entries_strongly_sorted|].
  pose proof (sort_entries_perm l1) as Hperm.
  pose proof (merged_from_length _ _ _ _ Hfrom) as Hlen.
  split.
  { destruct (merged_from_first date total existing l1 Hrecords Hfrom)
      as (e & Hfind & _ & Htotal).
    destruct (find_some_in _ _ _ Hfind) as [Hin He].
    exists e. split; [|now split].
    now apply (Permutation_in _ (Permutation_sym Hperm)). }
  split; intros Hex; rewrite Hex in Hlen.
  - split; [now rewrite (Permutation_length Hperm)|].
    destruct Hfrom as [pre e post Heq Hpre He|Habs]; [|congruence].
    exists pre, e, post. repeat split; try assumption.
    + apply total_of_with_total. rewrite Heq, forallb_app in Hrecords.
      apply andb_prop in Hrecords as [_ Hrest]. cbn [forallb] in Hrest.
      now apply andb_prop in Hrest as [He' _].
    + intros key Hkey. now apply field_with_total.
  - destruct Hfrom as [pre e post Heq Hpre He|Habs]; [|exact Hperm].
    rewrite Heq, existsb_app in Hex. cbn [existsb] in Hex.
    rewrite He, orb_true_r in Hex. discriminate.
Qed.

Lemma upsert_sorts_witness :
  forallb well_dated [record "2024-01-02" 5; record "2024-01-01" 4] = true
  /\ exists merged,
       upsert [record "2024-01-02" 5; record "2024-01-01" 4] "2024-01-03" 6
         = Ok merged
       /\ StronglySorted date_le merged
       /\ exists e, In e merged /\ dated "2024-01-03" e = true
                    /\ total_of e = Some (JInt 6).
Proof.
  split; [reflexivity|].
  destruct (upsert_overwrites_or_appends_then_sorts
              [record "2024-01-02" 5; record "2024-01-01" 4] "2024-01-03" 6
              eq_refl) as (merged & Hrun & Hsorted & Hrecord & _).
  exists merged. repeat split; assumption.
Defined.

(** Two records of one date: the merge rewrites the first and keeps the
    second, so the date still has two records after two merges. *)
Lemma duplicate_date_survives_upsert :
  upsert [record "2024-01-01" 1; record "2024-01-01" 2] "2024-01-01" 5
  = Ok [record "2024-01-01" 5; record "2024-01-01" 2]
  /\ upsert [record "2024-01-01" 5; record "2024-01-01" 2] "2024-01-01" 5
     = Ok [record "2024-01-01" 5; record "2024-01-01" 2]
  /\ count_dated "2024-01-01" [record "2024-01-01" 5; record "2024-01-01" 2]
     = 2%nat
  /\ count_dated "2024-01-01" [record "2024-01-01" 5; record "2024-01-01" 2]
     <> 1%nat.
Proof. repeat split. discriminate. Qed.

(** C7, as the code has it. The merge applied a second time with the same
    date and total returns the list the first one returned, so nothing
    grows; that list has a record of the date holding the total, and as
    many records of the date as the list it started from, one if that had
    none: exactly one whenever it had at most one. *)
Theorem upsert_twice_is_upsert_once (existing : list json) (date : string) (total : Z)
    (Hrecords : forallb well_dated existing = true) :
  exists merged,
    upsert existing date total = Ok merged
    /\ upsert merged date total = Ok merged
    /\ (exists e, In e merged /\ dated date e = true
                  /\ total_of e = Some (JInt total))
    /\ count_dated date merged = Nat.max 1 (count_dated date existing)
    /\ ((count_dated date existing <= 1)%nat -> count_dated date merged = 1%nat).
Proof.
  destruct (upsert_well_dated date total existing Hrecords)
    as (l1 & Hfrom & Hw1 & Hrun).
  destruct (merged_from_first date total existing l1 Hrecords Hfrom)
    as (e & Hfind & Hfix & Htotal).
  pose proof (sort_entries_perm l1) as Hperm.
  assert (Hw2 : forallb well_dated (sort_entries l1) = true)
    by (apply (forallb_perm _ l1); [now apply Permutation_sym|exact Hw1]).
  assert (Hfind2 : find (dated date) (sort_entries l1) = Some e)
    by now rewrite find_sort_entries.
  assert (Hcount : count_dated date (sort_entries l1)
                   = Nat.max 1 (count_dated date existing)).
  { rewrite (count_dated_perm date _ _ Hperm).
    now apply (merged_from_count date total). }
  exists (sort_entries l1). split; [exact Hrun|]. split; [|split; [|split]].
  - unfold upsert.
    rewrite (overwrite_today_fixed date total _ e Hw2 Hfind2 Hfix).
    cbn [obind fst snd]. rewrite (sort_by_date_well_dated _ Hw2).
    f_equal. apply sort_entries_fixed, sort_entries_sorted.
  - exists e. destruct (find_some_in _ _ _ Hfind2) as [Hin He].
    repeat split; assumption.
  - exact Hcount.
  - intros Hle. rewrite Hcount. lia.
Qed.

Lemma upsert_twice_witness :
  forallb well_dated [record "2024-01-02" 5; record "2024-01-01" 4] = true
  /\ exists merged,
       upsert [record "2024-01-02" 5; record "2024-01-01" 4] "2024-01-01" 7
         = Ok merged
       /\ upsert merged "2024-01-01" 7 = Ok merged.
Proof.
  split; [reflexivity|].
  destruct (upsert_twice_is_upsert_once
              [record "2024-01-02" 5; record "2024-01-01" 4] "2024-01-01" 7
              eq_refl) as (merged & Hrun & Hagain & _).
  exists merged. split; assumption.
Defined.

(** ** Loading the store *)

Lemma load_starts_empty_nolist (E : env) (s : state) :
  holds_list (stats s) = false ->
  fst (load_existing_stats E s) = Ok []
  /\ stats (snd (load_existing_stats E s)) = stats s
  /\ trace (snd (load_existing_stats E s))
     = trace s ++ match stats s with
                  | Missing => [ProbeStats; Print Info]
                  | Unreadable => [ProbeStats; ReadStats; Print Error]
                  | Holds _ => [ProbeStats; ReadStats; Print Warn]
                  end.
Proof.
  intros Hnolist.
  unfold load_existing_stats, bind, emit, read_file, print, emit, ret, log.
  cbn [stats trace]. destruct (stats s) as [| |[| | | | |l|]]; cbn;
    try discriminate Hnolist; rewrite <- ?app_assoc; repeat split; reflexivity.
Qed.

(** C8. [load_existing_stats] returns the empty list when [stats.json] is
    missing, and also when it is there but cannot be read or decoded or
    holds something that is not a list: the content is dropped, a line is
    printed ([info] for the missing file, [error] for the unreadable one,
    [warn] for the value that is not a list), nothing is raised and the
    file is not touched. *)
Theorem load_starts_empty_without_a_list (E : env) (s : state)
    (Hnolist : holds_list (stats s) = false) :
  fst (load_existing_stats E s) = Ok []
  /\ stats (snd (load_existing_stats E s)) = stats s
  /\ trace (snd (load_existing_stats E s))
     = trace s ++ match stats s with
                  | Missing => [ProbeStats; Print Info]
                  | Unreadable => [ProbeStats; ReadStats; Print Error]
                  | Holds _ => [ProbeStats; ReadStats; Print Warn]
                  end.
Proof. exact (load_starts_empty_nolist E s Hnolist). Qed.

Lemma load_starts_empty_witness :
  holds_list (Holds (JDict [("date", JStr "2024-01-01")])) = false
  /\ fst (load_existing_stats offline
            {| trace := []; stats := Holds (JDict [("date", JStr "2024-01-01")]) |})
     = Ok [].
Proof.
  split; [reflexivity|].
  exact (proj1 (load_starts_empty_without_a_list offline
                  {| trace := []; stats := Holds (JDict [("date", JStr "2024-01-01")]) |}
                  eq_refl)).
Defined.

Lemma load_list E s l :
  stats s = Holds (JList l) ->
  load_existing_stats E s = (Ok l, log ReadStats (log ProbeStats s)).
Proof.
  intros H. unfold load_existing_stats, bind, emit, read_file.
  cbn [log stats]. now rewrite H.
Qed.

(** ** Computations that leave the file alone *)

Create HintDb quiet.

Lemma quiet_ret {A} (a : A) : quiet (ret a).
Proof. intros E s. exists []. cbn. rewrite app_nil_r. now destruct s. Qed.

Lemma quiet_fail {A} (f : failure) : quiet (fun _ s => (@Fail A f, s)).
Proof. intros E s. exists []. cbn. rewrite app_nil_r. now destruct s. Qed.

Lemma quiet_lift {A} (o : env -> outcome A) : quiet (lift o).
Proof. intros E s. exists []. cbn. rewrite app_nil_r. now destruct s. Qed.

Lemma quiet_print l : quiet (print l).
Proof. intros E s. exists [Print l]. now split. Qed.

Lemma quiet_sleep z : quiet (sleep z).
Proof. intros E s. exists [Sleep z]. now split. Qed.

Lemma quiet_session_get r : quiet (session_get r).
Proof.
  intros E s. exists [Get r]. unfold session_get.
  destruct (http E (trace s) r); now split.
Qed.

Lemma quiet_bind {A B} (m : M A) (k : A -> M B) :
  quiet m -> (forall a, quiet (k a)) -> quiet (bind m k).
Proof.
  intros Hm Hk E s. destruct (Hm E s) as (evs1 & H1 & F1). unfold bind.
  destruct (m E s) as [[a|f] s1]; cbn [snd] in *.
  - destruct (Hk a E s1) as (evs2 & H2 & F2). exists (evs1 ++ evs2).
    rewrite H2, H1. cbn [trace stats]. rewrite app_assoc, forallb_app, F1, F2.
    now split.
  - exists evs1. now split.
Qed.

Lemma quiet_if {A} (b : bool) (m1 m2 : M A) :
  quiet m1 -> quiet m2 -> quiet (if b then m1 else m2).
Proof. now destruct b. Qed.

#[local] Hint Resolve quiet_ret quiet_fail quiet_lift quiet_print quiet_sleep
  quiet_session_get quiet_bind quiet_if : quiet.

Lemma quiet_stats {A} (m : M A) E s : quiet m -> stats (snd (m E s)) = stats s.
Proof. intros Hq. destruct (Hq E s) as (evs & -> & _). reflexivity. Qed.

Lemma quiet_resp_json resp : quiet (resp_json resp).
Proof. apply quiet_lift. Qed.

Lemma quiet_get_session : quiet get_session.
Proof.
  intros E s. unfold get_session. destruct (has_token E).
  - apply quiet_ret.
  - apply quiet_print.
Qed.

#[local] Hint Resolve quiet_resp_json quiet_get_session : quiet.

Lemma quiet_fetch_pages fuel : forall page repos, quiet (fetch_pages fuel page repos).
Proof.
  induction fuel as [|fuel IH]; intros page repos; cbn [fetch_pages].
  - apply quiet_fail.
  - apply quiet_bind; [auto with quiet|]. intros resp.
    apply quiet_if; [auto with quiet|].
    apply quiet_bind; [auto with quiet|]. intros batch.
    apply quiet_if; auto 6 with quiet.
Qed.

Lemma quiet_fetch_all_repos fuel : quiet (fetch_all_repos fuel).
Proof.
  unfold fetch_all_repos. pose proof (quiet_fetch_pages fuel 1 []).
  auto 8 with quiet.
Qed.

Lemma quiet_code_frequency_attempts owner name retries backoff attempts :
  quiet (code_frequency_attempts owner name retries backoff attempts).
Proof.
  induction attempts as [|attempt later IH]; cbn [code_frequency_attempts].
  - apply quiet_ret.
  - apply quiet_bind; [auto with quiet|]. intros resp.
    repeat apply quiet_if; auto 6 with quiet.
    apply quiet_bind; [auto with quiet|]. intros [| | | | | |]; auto with quiet.
Qed.

Lemma quiet_fetch_repo_languages owner name : quiet (fetch_repo_languages owner name).
Proof.
  unfold fetch_repo_languages.
  apply quiet_bind; [auto with quiet|]. intros resp.
  apply quiet_if; [auto with quiet|].
  apply quiet_bind; [auto with quiet|]. intros [| | | | | |]; auto with quiet.
Qed.

Lemma quiet_languages_estimate langs : quiet (languages_estimate langs).
Proof. destruct langs as [[|kv d]|]; cbn [languages_estimate]; auto with quiet. Qed.

Lemma quiet_repo_estimate owner name : quiet (repo_estimate owner name).
Proof.
  unfold repo_estimate, fetch_repo_code_frequency.
  apply quiet_bind; [apply quiet_code_frequency_attempts|]. intros [weeks|].
  - apply quiet_lift.
  - apply quiet_bind; [apply quiet_fetch_repo_languages|].
    intros langs. apply quiet_languages_estimate.
Qed.

Lemma quiet_count_repo repo total : quiet (count_repo repo total).
Proof.
  unfold count_repo. pose proof quiet_repo_estimate. auto 12 with quiet.
Qed.

Lemma quiet_total_over repos : forall total, quiet (total_over repos total).
Proof.
  induction repos as [|repo rest IH]; intros total; cbn [total_over].
  - apply quiet_ret.
  - apply quiet_bind; [apply quiet_count_repo|auto].
Qed.

Lemma quiet_compute_total_lines repos : quiet (compute_total_lines repos).
Proof.
  unfold compute_total_lines. pose proof (quiet_total_over repos 0).
  auto 6 with quiet.
Qed.

(** ** Repositories the loop passes over *)

Lemma missing_or_empty_falsy v :
  missing_or_empty v = true ->
  truthy (match v with Some x => x | None => JStr "" end) = false.
Proof.
  destruct v as [[| | | |[|c s']| |]|]; try discriminate; reflexivity.
Qed.

Lemma count_repo_skips d total E s :
  owner_is_object d = true ->
  missing_or_empty (login_of d) = true \/ missing_or_empty (dict_get "name" d) = true ->
  count_repo (JDict d) total E s = (Ok total, s).
Proof.
  unfold owner_is_object, login_of, count_repo. intros Howner Hmissing.
  rewrite !bind_lift. cbn [py_get].
  assert (Hskip : forall o,
            missing_or_empty (dict_get "login" o) = true
            \/ missing_or_empty (dict_get "name" d) = true ->
            negb (truthy (match dict_get "login" o with
                          | Some v => v | None => JStr "" end))
            || negb (truthy (match dict_get "name" d with
                             | Some v => v | None => JStr "" end)) = true).
  { intros o [H|H]; apply missing_or_empty_falsy in H; rewrite H;
      [reflexivity|apply orb_true_r]. }
  destruct (dict_get "owner" d) as [[| | | | | |o]|]; try discriminate Howner;
    rewrite !bind_lift; cbn [py_get]; rewrite !bind_lift; cbn [py_get].
  - now rewrite (Hskip o Hmissing).
  - now rewrite (Hskip [] Hmissing).
Qed.

Lemma total_over_app before : forall after total E s,
  total_over (before ++ after) total E s
  = match total_over before total E s with
    | (Ok total', s') => total_over after total' E s'
    | (Fail f, s') => (Fail f, s')
    end.
Proof.
  induction before as [|repo before IH]; intros after total E s; [reflexivity|].
  cbn [app total_over]. unfold bind.
  destruct (count_repo repo total E s) as [[total'|f] s']; [apply IH|reflexivity].
Qed.

(** A repository descriptor whose owner is absent or an object, and whose
    owner login or name is absent, null or empty, is passed over: the round
    of the loop ends with the total and the state it started from, so that
    no line is printed and no request is sent for it, and the whole
    estimate is the one of the list without that descriptor. *)
Theorem nameless_repository_is_skipped (d : pydict)
    (Howner : owner_is_object d = true)
    (Hmissing : missing_or_empty (login_of d) = true
                \/ missing_or_empty (dict_get "name" d) = true) :
  forall E s total,
    total_over [JDict d] total E s = (Ok total, s)
    /\ (forall rest, total_over (JDict d :: rest) total E s = total_over rest total E s)
    /\ (forall before after,
          compute_total_lines (before ++ JDict d :: after) E s
          = compute_total_lines (before ++ after) E s).
Proof.
  intros E s total.
  assert (Hround : forall rest total' E' s',
            total_over (JDict d :: rest) total' E' s' = total_over rest total' E' s').
  { intros rest total' E' s'. cbn [total_over]. unfold bind.
    now rewrite (count_repo_skips d total' E' s' Howner Hmissing). }
  split; [apply (Hround [])|]. split; [intros rest; apply Hround|].
  intros before after. unfold compute_total_lines, bind.
  rewrite (total_over_app before (JDict d :: after)), (total_over_app before after).
  destruct (total_over before 0 E s) as [[total'|f] s']; [|reflexivity].
  now rewrite Hround.
Qed.

Lemma nameless_repository_witness :
  owner_is_object ownerless = true
  /\ (missing_or_empty (login_of ownerless) = true
      \/ missing_or_empty (dict_get "name" ownerless) = true)
  /\ total_over [JDict ownerless] 7 always_202 fresh
     = (Ok 7, fresh).
Proof.
  split; [reflexivity|]. split; [left; reflexivity|].
  exact (proj1 (nameless_repository_is_skipped ownerless eq_refl
                  (or_introl eq_refl) always_202
                  fresh 7)).
Defined.

(** C10. A descriptor whose owner is [null] has no owner login, and it is
    not passed over: [repo.get("owner", {})] returns [None], on which
    [.get("login", "")] raises [AttributeError] (line 136) before the test
    of line 138, so that the loop and the whole estimate end there. *)
Theorem null_owner_aborts_estimate (E : env) (s : state) (fields : pydict)
    (rest : list json) (total : Z) :
  missing_or_empty (login_of (("owner", JNull) :: fields)) = true
  /\ total_over (JDict (("owner", JNull) :: fields) :: rest) total E s
     = (Raise AttributeError, s)
  /\ fst (compute_total_lines (JDict (("owner", JNull) :: fields) :: rest) E s)
     = Raise AttributeError
  /\ missing_or_empty (login_of null_owner) = true
  /\ fst (compute_total_lines [JDict null_owner; octo_repo] (one_repo two_weeks) fresh)
     = Raise AttributeError.
Proof. repeat split. Qed.

(** ** The run as a whole *)

Lemma get_session_ok E s : fst (get_session E s) = Ok tt.
Proof. unfold get_session. now destruct (has_token E). Qed.

Lemma save_stats_run data E s :
  save_stats data E s
  = match disk E (trace s) data with
    | Written =>
        (Ok tt,
         log (Print Info)
           {| trace := trace s ++ [WriteStats data]; stats := Holds (JList data) |})
    | OpenRefused => (Raise OSError, log (WriteStats data) s)
    | DumpBroken e whole =>
        (Raise e,
         {| trace := trace s ++ [WriteStats data];
            stats := if whole then Holds (JList data) else Unreadable |})
    end.
Proof.
  unfold save_stats, bind, write_file.
  now destruct (disk E (trace s) data).
Qed.

(** The steps of [update_stats], one after the other. *)
Lemma update_stats_run fuel E s :
  update_stats fuel E s
  = match fetch_all_repos fuel E (snd (get_session E s)) with
    | (Ok [], s1) => (Ok tt, log (Print Warn) s1)
    | (Ok (r :: rs), s1) =>
        match compute_total_lines (r :: rs) E s1 with
        | (Ok total_lines, s2) =>
            match load_existing_stats E s2 with
            | (Ok existing, s3) =>
                match upsert existing (today E) total_lines with
                | Ok merged => save_stats merged E s3
                | Fail f => (Fail f, s3)
                end
            | (Fail f, s3) => (Fail f, s3)
            end
        | (Fail f, s2) => (Fail f, s2)
        end
    | (Fail f, s1) => (Fail f, s1)
    end.
Proof.
  unfold update_stats. unfold bind at 1.
  pose proof (get_session_ok E s) as Hs.
  destruct (get_session E s) as [o s0]. cbn [fst snd] in *. subst o.
  unfold bind at 1.
  destruct (fetch_all_repos fuel E s0) as [[[|r rs]|f] s1]; reflexivity.
Qed.

Lemma quiet_listing fuel : quiet (bind get_session (fun _ => fetch_all_repos fuel)).
Proof. pose proof (quiet_fetch_all_repos fuel). auto with quiet. Qed.

Lemma listing_state fuel E s :
  snd (bind get_session (fun _ => fetch_all_repos fuel) E s)
  = snd (fetch_all_repos fuel E (snd (get_session E s))).
Proof.
  unfold bind. pose proof (get_session_ok E s) as Hs.
  destruct (get_session E s) as [o s0]. cbn [fst snd] in *. now subst o.
Qed.

(** ** Normal operation *)

Lemma yields_ret {A} E (a : A) (Q : A -> Prop) : Q a -> yields E (ret a) Q.
Proof. intros H s. now exists a, s. Qed.

Lemma yields_print E l (Q : unit -> Prop) : Q tt -> yields E (print l) Q.
Proof. intros H s. now exists tt, (log (Print l) s). Qed.

Lemma yields_sleep E z (Q : unit -> Prop) : Q tt -> yields E (sleep z) Q.
Proof. intros H s. now exists tt, (log (Sleep z) s). Qed.

Lemma yields_lift {A} E (o : env -> outcome A) (a : A) (Q : A -> Prop) :
  o E = Ok a -> Q a -> yields E (lift o) Q.
Proof. intros Ho H s. exists a, s. unfold lift. now rewrite Ho. Qed.

Lemma yields_bind {A B} E (m : M A) (k : A -> M B) (P : A -> Prop) (Q : B -> Prop) :
  yields E m P -> (forall a, P a -> yields E (k a) Q) -> yields E (bind m k) Q.
Proof.
  intros Hm Hk s. destruct (Hm s) as (a & s1 & Hrun & Ha).
  unfold bind. rewrite Hrun. apply (Hk a Ha).
Qed.

Lemma yields_session_get E r :
  normal_operation E ->
  yields E (session_get r)
    (fun resp => typed_answer r (Response (status_code resp) (body resp)) = true).
Proof.
  intros HE s. specialize (HE (trace s) r). unfold session_get.
  destruct (http E (trace s) r) as [|st b]; [discriminate|].
  now exists {| status_code := st; body := b |}, (log (Get r) s).
Qed.

Lemma returns_in_session_get E r :
  normal_operation E ->
  returns_in E (session_get r)
    (fun resp => typed_answer r (Response (status_code resp) (body resp)) = true).
Proof.
  intros HE s resp s'. specialize (HE (trace s) r). unfold session_get.
  destruct (http E (trace s) r) as [|st b]; [discriminate|].
  intros H. now injection H as <- _.
Qed.

Lemma returns_in_bind {A B} E (m : M A) (k : A -> M B) (P : A -> Prop) (Q : B -> Prop) :
  returns_in E m P -> (forall a, P a -> returns_in E (k a) Q) ->
  returns_in E (bind m k) Q.
Proof.
  intros Hm Hk s b s'. unfold bind.
  destruct (m E s) as [[a|f] s1] eqn:Hrun; [|discriminate].
  apply (Hk a (Hm s a s1 Hrun)).
Qed.

Lemma returns_in_ret {A} E (a : A) (Q : A -> Prop) : Q a -> returns_in E (ret a) Q.
Proof. intros H s a' s' Heq. now injection Heq as <- _. Qed.

Lemma returns_in_any {A} E (m : M A) : returns_in E m (fun _ => True).
Proof. now intros s a s' _. Qed.

Lemma returns_in_lift {A} E (o : env -> outcome A) (Q : A -> Prop) :
  (forall a, o E = Ok a -> Q a) -> returns_in E (lift o) Q.
Proof.
  intros H s a s'. unfold lift. intros Heq. apply H. now injection Heq as -> _.
Qed.

(** The pages of the listing hold descriptors. *)
Lemma fetch_pages_descriptors E fuel :
  normal_operation E ->
  forall page repos,
    forallb descriptor repos = true ->
    returns_in E (fetch_pages fuel page repos)
      (fun all => forallb descriptor all = true).
Proof.
  intros HE. induction fuel as [|fuel IH]; intros page repos Hrepos;
    cbn [fetch_pages].
  - now intros s a s'.
  - apply (returns_in_bind _ _ _ _ _ (returns_in_session_get E _ HE)).
    intros resp Hresp. cbn [typed_answer] in Hresp.
    destruct (status_code resp =? 200); cbn [negb].
    + destruct (body resp) as [j|] eqn:Hbody; [|discriminate].
      apply (returns_in_bind _ _ _ (fun batch => batch = j)).
      { apply returns_in_lift. rewrite Hbody. intros a H. now injection H as <-. }
      intros batch ->. destruct (truthy j); cbn [negb orb] in *.
      * destruct j as [| | | | |l|]; try discriminate Hresp.
        cbn [py_iter]. apply (returns_in_bind _ _ _ (fun items => items = l)).
        { apply returns_in_lift. intros a H. now injection H as <-. }
        intros items ->.
        apply (returns_in_bind _ _ _ _ _ (returns_in_any _ _)). intros _ _.
        apply IH. now rewrite forallb_app, Hrepos, Hresp.
      * now apply returns_in_ret.
    + apply (returns_in_bind _ _ _ _ _ (returns_in_any _ _)). intros _ _.
      now apply returns_in_ret.
Qed.

Lemma non_fork_descriptors repos : forall kept,
  forallb descriptor repos = true ->
  non_fork repos = Ok kept -> forallb descriptor kept = true.
Proof.
  induction repos as [|r rest IH]; cbn [non_fork forallb]; intros kept Hall.
  - intros H. now injection H as <-.
  - apply andb_prop in Hall as [Hr Hrest].
    destruct (py_get r "fork" JNull) as [fork|f]; [|discriminate]. cbn [obind].
    destruct (non_fork rest) as [kept'|f]; [|discriminate]. cbn [obind].
    intros H. injection H as <-. specialize (IH kept' Hrest eq_refl).
    destruct (truthy fork); [exact IH|]. cbn [forallb]. now rewrite Hr, IH.
Qed.

Lemma fetch_all_repos_descriptors E fuel :
  normal_operation E ->
  returns_in E (fetch_all_repos fuel) (fun repos => forallb descriptor repos = true).
Proof.
  intros HE. unfold fetch_all_repos.
  apply (returns_in_bind _ _ _ _ _ (returns_in_any _ _)). intros _ _.
  apply (returns_in_bind _ _ _ _ _ (fetch_pages_descriptors E fuel HE 1 [] eq_refl)).
  intros repos Hrepos.
  apply (returns_in_bind _ _ _ (fun kept => forallb descriptor kept = true)).
  { apply returns_in_lift. intros kept. now apply non_fork_descriptors. }
  intros kept Hkept.
  apply (returns_in_bind _ _ _ _ _ (returns_in_any _ _)). intros _ _.
  now apply returns_in_ret.
Qed.

(** The weekly statistics arrive as typed samples or not at all. *)
Lemma yields_code_frequency_attempts E owner name retries backoff attempts :
  normal_operation E ->
  yields E (code_frequency_attempts owner name retries backoff attempts)
    (fun freq => forall l, freq = Some l -> forallb sample_or_malformed l = true).
Proof.
  intros HE. induction attempts as [|attempt later IH];
    cbn [code_frequency_attempts].
  - apply yields_ret. discriminate.
  - apply (yields_bind _ _ _ _ _ (yields_session_get E _ HE)).
    intros resp Hresp. cbn [typed_answer] in Hresp.
    destruct (status_code resp =? 202).
    { destruct (attempt =? retries).
      - apply (yields_bind _ _ _ (fun _ => True)); [now apply yields_print|].
        intros _ _. apply yields_ret. discriminate.
      - apply (yields_bind _ _ _ (fun _ => True)); [now apply yields_print|].
        intros _ _.
        apply (yields_bind _ _ _ (fun _ => True)); [now apply yields_sleep|].
        intros _ _. exact IH. }
    destruct (status_code resp =? 204).
    { apply (yields_bind _ _ _ (fun _ => True)); [now apply yields_print|].
      intros _ _. apply yields_ret. intros l H. now injection H as <-. }
    destruct (status_code resp =? 200); cbn [negb].
    + destruct (body resp) as [j|] eqn:Hbody; [|discriminate].
      apply (yields_bind _ _ _ (fun data => data = j)).
      { unfold resp_json. apply (yields_lift _ _ j); [now rewrite Hbody|reflexivity]. }
      intros data ->.
      destruct j as [| | | | |samples|];
        try (apply (yields_bind _ _ _ (fun _ => True)); [now apply yields_print|];
             intros _ _; apply yields_ret; discriminate).
      apply yields_ret. intros l H. now injection H as <-.
    + apply (yields_bind _ _ _ (fun _ => True)); [now apply yields_print|].
      intros _ _. apply yields_ret. discriminate.
Qed.

Lemma int_values_typed E d :
  forallb int_valued d = true -> exists langs, int_values E d = Ok langs.
Proof.
  induction d as [|[k v] d IH]; cbn [forallb int_values]; [now exists []|].
  intros H. apply andb_prop in H as [Hv Hd]. destruct (IH Hd) as [langs ->].
  unfold int_valued in Hv. cbn [snd] in Hv. destruct v; try discriminate.
  cbn [py_int obind]. now eexists.
Qed.

Lemma yields_fetch_repo_languages E owner name :
  normal_operation E ->
  yields E (fetch_repo_languages owner name) (fun _ => True).
Proof.
  intros HE. unfold fetch_repo_languages.
  apply (yields_bind _ _ _ _ _ (yields_session_get E _ HE)).
  intros resp Hresp. cbn [typed_answer] in Hresp.
  destruct (status_code resp =? 200); cbn [negb].
  - destruct (body resp) as [j|] eqn:Hbody; [|discriminate].
    apply (yields_bind _ _ _ (fun data => data = j)).
    { unfold resp_json. apply (yields_lift _ _ j); [now rewrite Hbody|reflexivity]. }
    intros data ->.
    destruct j as [| | | | | |d]; try now apply yields_ret.
    destruct (int_values_typed E d Hresp) as [langs Hlangs].
    apply (yields_bind _ _ _ (fun _ => True)).
    { now apply (yields_lift _ _ langs). }
    intros ? _. now apply yields_ret.
  - apply (yields_bind _ _ _ (fun _ => True)); [now apply yields_print|].
    intros _ _. now apply yields_ret.
Qed.

Lemma yields_languages_estimate E langs :
  yields E (languages_estimate langs) (fun _ => True).
Proof.
  destruct langs as [[|kv d]|]; cbn [languages_estimate]; try now apply yields_ret.
  apply (yields_bind _ _ _ (fun _ => True)); [now apply yields_print|].
  intros _ _. now apply yields_ret.
Qed.

Lemma yields_repo_estimate E owner name :
  normal_operation E -> yields E (repo_estimate owner name) (fun _ => True).
Proof.
  intros HE. unfold repo_estimate, fetch_repo_code_frequency.
  apply (yields_bind _ _ _ _ _
           (yields_code_frequency_attempts E owner name _ _ _ HE)).
  intros [weeks|] Hweeks.
  - apply (yields_lift _ _ (0 + net_sum weeks)); [|exact I].
    apply sum_weeks_acc. now apply Hweeks.
  - apply (yields_bind _ _ _ _ _ (yields_fetch_repo_languages E owner name HE)).
    intros langs _. apply yields_languages_estimate.
Qed.

Lemma yields_count_repo E repo total :
  normal_operation E -> descriptor repo = true ->
  yields E (count_repo repo total) (fun _ => True).
Proof.
  intros HE Hrepo. destruct repo as [| | | | | |d]; try discriminate Hrepo.
  cbn [descriptor] in Hrepo. unfold owner_is_object in Hrepo. unfold count_repo.
  apply (yields_bind _ _ _ (fun _ => True)); [now eapply yields_lift|]. intros ? _.
  apply (yields_bind _ _ _ (fun o => exists fields, o = JDict fields)).
  { eapply yields_lift; [reflexivity|].
    destruct (dict_get "owner" d) as [[| | | | | |o]|]; try discriminate Hrepo;
      now eexists. }
  intros owner_obj [fields ->].
  apply (yields_bind _ _ _ (fun _ => True)); [now eapply yields_lift|]. intros owner _.
  apply (yields_bind _ _ _ (fun _ => True)); [now eapply yields_lift|]. intros name _.
  destruct (negb (truthy owner) || negb (truthy name)); [now apply yields_ret|].
  apply (yields_bind _ _ _ (fun _ => True)); [now apply yields_print|]. intros _ _.
  apply (yields_bind _ _ _ _ _ (yields_repo_estimate E owner name HE)). intros ? _.
  apply (yields_bind _ _ _ (fun _ => True)); [now apply yields_print|]. intros _ _.
  now apply yields_ret.
Qed.

Lemma yields_total_over E repos :
  normal_operation E -> forallb descriptor repos = true ->
  forall total, yields E (total_over repos total) (fun _ => True).
Proof.
  intros HE. induction repos as [|repo rest IH]; cbn [forallb total_over];
    intros Hall total; [now apply yields_ret|].
  apply andb_prop in Hall as [Hrepo Hrest].
  apply (yields_bind _ _ _ _ _ (yields_count_repo E repo total HE Hrepo)).
  intros total' _. now apply IH.
Qed.

Lemma yields_compute_total_lines E repos :
  normal_operation E -> forallb descriptor repos = true ->
  yields E (compute_total_lines repos) (fun _ => True).
Proof.
  intros HE Hall. unfold compute_total_lines.
  apply (yields_bind _ _ _ _ _ (yields_total_over E repos HE Hall 0)). intros ? _.
  apply (yields_bind _ _ _ (fun _ => True)); [now apply yields_print|]. intros _ _.
  now apply yields_ret.
Qed.

Lemma load_typed E s :
  store_typed (stats s) = true ->
  exists existing s3,
    load_existing_stats E s = (Ok existing, s3)
    /\ forallb well_dated existing = true.
Proof.
  intros Hok. destruct (holds_list (stats s)) eqn:Hl.
  - destruct (stats s) as [| |[| | | | |l|]] eqn:Hs; try discriminate Hl.
    exists l, (log ReadStats (log ProbeStats s)). now rewrite (load_list E s l Hs).
  - destruct (load_starts_empty_nolist E s Hl) as (Hr & _).
    destruct (load_existing_stats E s) as [o s3]. cbn [fst] in Hr. subst o.
    now exists [], s3.
Qed.

(** In normal operation, with a file that can be written, a listing with a
    repository leads to a written store. *)
Lemma normal_run_writes fuel E s r rs s1 :
  normal_operation E ->
  writable E ->
  store_typed (stats s) = true ->
  fetch_all_repos fuel E (snd (get_session E s)) = (Ok (r :: rs), s1) ->
  exists s2 data,
    update_stats fuel E s = (Ok tt, s2) /\ stats s2 = Holds (JList data).
Proof.
  intros HE Hdisk Hstore Hlisting. rewrite update_stats_run, Hlisting.
  pose proof (fetch_all_repos_descriptors E fuel HE _ _ _ Hlisting) as Hdesc.
  pose proof (quiet_stats get_session E s quiet_get_session) as H0.
  pose proof (quiet_stats (fetch_all_repos fuel) E (snd (get_session E s))
                (quiet_fetch_all_repos fuel)) as H1.
  rewrite Hlisting in H1. cbn [snd] in H1.
  destruct (yields_compute_total_lines E (r :: rs) HE Hdesc s1)
    as (t & s2 & Hcompute & _).
  pose proof (quiet_stats (compute_total_lines (r :: rs)) E s1
                (quiet_compute_total_lines (r :: rs))) as H2.
  rewrite Hcompute in *. cbn [snd] in H2.
  assert (Hs2 : store_typed (stats s2) = true) by now rewrite H2, H1, H0.
  destruct (load_typed E s2 Hs2) as (existing & s3 & -> & Hexisting).
  destruct (upsert_well_dated (today E) t existing Hexisting)
    as (l1 & _ & _ & ->).
  rewrite save_stats_run, Hdisk. now eexists _, _.
Qed.

(** A run with a repository in its listing that ends without writing and
    without returning: the connection fails at line 81, the exception is
    not caught, and the store is as it was. *)
Lemma failed_connection_ends_run_without_writing :
  fst (fetch_all_repos 3 dropped_connection (snd (get_session dropped_connection fresh)))
  = Ok [octo_repo]
  /\ fst (update_stats 3 dropped_connection fresh) = Raise RequestError
  /\ stats (snd (update_stats 3 dropped_connection fresh)) = Missing
  /\ forallb file_free (trace (snd (update_stats 3 dropped_connection fresh))) = true.
Proof. repeat split. Qed.

(** C9, as the code has it. When no owned non-fork repository is listed,
    [update_stats] prints a warning and returns: [stats.json] is not
    probed, read or written and holds what it held.  It is the only way a
    run returns without having written the store: with a repository in the
    list, a run that returns has written the merged records; and such a
    run does return in normal operation (every request answered, every 200
    carrying JSON of the documented shape, the store absent, unreadable or
    holding records, the file writable).  A run can also end by an
    exception that nothing catches. *)
Theorem empty_listing_is_the_only_early_return (fuel : nat) (E : env) (s s1 : state)
    (repos : list json)
    (Hlisting : fetch_all_repos fuel E (snd (get_session E s)) = (Ok repos, s1)) :
  (repos = [] ->
     update_stats fuel E s = (Ok tt, log (Print Warn) s1)
     /\ stats (log (Print Warn) s1) = stats s
     /\ exists evs, trace (log (Print Warn) s1) = trace s ++ evs
                    /\ forallb file_free evs = true)
  /\ (repos <> [] ->
      forall s2, update_stats fuel E s = (Ok tt, s2) ->
        exists data before,
          stats s2 = Holds (JList data)
          /\ trace s2 = before ++ [WriteStats data; Print Info])
  /\ (repos <> [] -> normal_operation E -> writable E ->
      store_typed (stats s) = true ->
      exists s2 data,
        update_stats fuel E s = (Ok tt, s2) /\ stats s2 = Holds (JList data)).
Proof.
  split; [|split].
  - intros ->. rewrite update_stats_run, Hlisting. split; [reflexivity|].
    destruct (quiet_listing fuel E s) as (evs & Hs1 & Hfree).
    rewrite listing_state, Hlisting in Hs1. cbn [snd] in Hs1. subst s1.
    cbn [log stats trace]. split; [reflexivity|].
    exists (evs ++ [Print Warn]). rewrite app_assoc, forallb_app, Hfree. now split.
  - intros Hne s2. rewrite update_stats_run, Hlisting.
    destruct repos as [|r rs]; [contradiction|].
    destruct (compute_total_lines (r :: rs) E s1) as [[t|f] s']; [|discriminate].
    destruct (load_existing_stats E s') as [[existing|f] s3]; [|discriminate].
    destruct (upsert existing (today E) t) as [merged|f]; [|discriminate].
    rewrite save_stats_run.
    destruct (disk E (trace s3) merged); try discriminate.
    intros H. injection H as <-.
    exists merged, (trace s3). cbn [log stats trace]. rewrite <- app_assoc.
    now split.
  - intros Hne HE Hdisk Hstore. destruct repos as [|r rs]; [contradiction|].
    exact (normal_run_writes fuel E s r rs s1 HE Hdisk Hstore Hlisting).
Qed.

Lemma no_repositories_witness :
  fetch_all_repos 1 always_202 (snd (get_session always_202 fresh))
  = (Ok [], {| trace := [Print Info; Get (ListRepos 1); Print Error; Print Info];
               stats := Missing |})
  /\ update_stats 1 always_202 fresh
     = (Ok tt,
        {| trace := [Print Info; Get (ListRepos 1); Print Error; Print Info;
                     Print Warn];
           stats := Missing |}).
Proof.
  split; [reflexivity|].
  exact (proj1 (proj1 (empty_listing_is_the_only_early_return 1 always_202 fresh
                         {| trace := [Print Info; Get (ListRepos 1); Print Error;
                                      Print Info];
                            stats := Missing |} [] eq_refl) eq_refl)).
Defined.

(** ** Totals are never negative *)

Lemma returns_ret {A} (a : A) (P : A -> Prop) : P a -> returns (ret a) P.
Proof. intros H E s a' s' Heq. injection Heq as <- _. exact H. Qed.

Lemma returns_bind {A B} (m : M A) (k : A -> M B) (P : B -> Prop) :
  (forall a, returns (k a) P) -> returns (bind m k) P.
Proof.
  intros Hk E s b s'. unfold bind.
  destruct (m E s) as [[a|f] s1]; [apply Hk|discriminate].
Qed.

Lemma count_repo_grows repo total :
  returns (count_repo repo total) (fun total' => total <= total').
Proof.
  unfold count_repo. do 4 (apply returns_bind; intros ?).
  match goal with |- returns (if ?b then _ else _) _ => destruct b end.
  - apply returns_ret. lia.
  - do 3 (apply returns_bind; intros ?). apply returns_ret. lia.
Qed.

Lemma total_over_grows repos : forall total,
  returns (total_over repos total) (fun total' => total <= total').
Proof.
  induction repos as [|repo rest IH]; intros total; cbn [total_over].
  - apply returns_ret. lia.
  - intros E s t s'. unfold bind.
    destruct (count_repo repo total E s) as [[t1|f] s1] eqn:Hround; [|discriminate].
    intros Hrest. apply count_repo_grows in Hround. apply IH in Hrest. lia.
Qed.

Lemma compute_total_lines_nonneg repos :
  returns (compute_total_lines repos) (fun total => 0 <= total).
Proof.
  unfold compute_total_lines. do 2 (apply returns_bind; intros ?).
  apply returns_ret. lia.
Qed.



Lemma insert_keyed_perm x l : Permutation (insert_keyed x l) (x :: l).
Proof.
  induction l as [|y l IH]; [reflexivity|].
  cbn [insert_keyed]. destruct (String.ltb (fst y) (fst x)); [|reflexivity].
  rewrite IH. apply perm_swap.
Qed.

Lemma sort_keyed_perm l : Permutation (sort_keyed l) l.
Proof.
  induction l as [|x l IH]; [reflexivity|].
  cbn [sort_keyed]. rewrite insert_keyed_perm. now constructor.
Qed.

Lemma date_keys_entries l : forall keyed, date_keys l = Ok keyed -> map snd keyed = l.
Proof.
  induction l as [|x l IH]; cbn [date_keys]; intros keyed.
  - intros H. now injection H as <-.
  - destruct (py_get x "date" (JStr "")) as [k|f]; [|discriminate]. cbn [obind].
    destruct (date_keys l) as [ks|f]; [|discriminate]. cbn [obind].
    intros H. injection H as <-. cbn [map snd]. now rewrite (IH ks eq_refl).
Qed.

Lemma string_keys_entries keyed : forall ks,
  string_keys keyed = Some ks -> map snd ks = map snd keyed.
Proof.
  induction keyed as [|[k x] keyed IH]; cbn [string_keys]; intros ks.
  - intros H. now injection H as <-.
  - destruct k; try discriminate.
    destruct (string_keys keyed) as [ks'|]; [|discriminate]. cbn [option_map].
    intros H. injection H as <-. cbn [map snd]. now rewrite (IH ks' eq_refl).
Qed.

(** Whatever [sort_by_date] returns holds the entries it was given. *)
Lemma sort_by_date_perm l l' : sort_by_date l = Ok l' -> Permutation l' l.
Proof.
  unfold sort_by_date.
  destruct (date_keys l) as [keyed|f] eqn:Hkeys; [|discriminate]. cbn [obind].
  destruct (string_keys keyed) as [ks|] eqn:Hs.
  - intros H. injection H as <-.
    rewrite <- (date_keys_entries l keyed Hkeys), <- (string_keys_entries keyed ks Hs).
    apply Permutation_map, sort_keyed_perm.
  - destruct l as [|x [|y l]]; try discriminate; intros H; now injection H as <-.
Qed.



Lemma is_today_dated today d date :
  py_get (JDict d) "date" JNull = Ok date -> is_today date today = true ->
  dated today (JDict d) = true.
Proof.
  cbn [py_get dated]. intros H. injection H as <-.
  destruct (dict_get "date" d) as [[| | | |s| |]|]; try discriminate. exact id.
Qed.

Lemma overwrite_today_holds today total existing : forall r,
  overwrite_today today total existing = Ok r ->
  fst r = true ->
  exists e, In e (snd r) /\ dated today e = true
            /\ total_of e = Some (JInt total).
Proof.
  induction existing as [|x l IH]; cbn [overwrite_today]; intros r.
  - intros H. now injection H as <-.
  - destruct (py_get x "date" JNull) as [date|f] eqn:Hget; [|discriminate].
    cbn [obind]. destruct (is_today date today) eqn:Hday.
    + destruct x as [| | | | | |d]; try discriminate Hget.
      cbn [set_total_lines obind]. intros H _. injection H as <-.
      exists (JDict (dict_set "total_lines" (JInt total) d)). cbn [snd].
      split; [now left|]. split.
      * change (dated today (with_total total (JDict d)) = true).
        rewrite dated_with_total.
        exact (is_today_dated today d date Hget Hday).
      * apply dict_get_set_same.
    + destruct (overwrite_today today total l) as [r'|f]; [|discriminate].
      cbn [obind]. intros H Hfst. injection H as <-. cbn [fst snd] in *.
      destruct (IH r' eq_refl Hfst) as (e & Hin & He). exists e.
      split; [now right|exact He].
Qed.

(** Whatever the entries are, a merge that returns has a record of the
    date holding the total. *)
Lemma upsert_holds_total existing today total merged :
  upsert existing today total = Ok merged ->
  exists e, In e merged /\ dated today e = true
            /\ total_of e = Some (JInt total).
Proof.
  unfold upsert.
  destruct (overwrite_today today total existing) as [r|f] eqn:Hover; [|discriminate].
  cbn [obind]. intros Hsort. apply sort_by_date_perm in Hsort.
  destruct (fst r) eqn:Hfst.
  - destruct (overwrite_today_holds today total existing r Hover Hfst)
      as (e & Hin & He).
    exists e. split; [|exact He].
    now apply (Permutation_in _ (Permutation_sym Hsort)).
  - exists (new_record today total). split.
    + apply (Permutation_in _ (Permutation_sym Hsort)), in_or_app.
      right. now left.
    + split; [apply dated_new_record|reflexivity].
Qed.



(** ** Runs of the whole program *)

(** A repository that lost 490 lines adds nothing: the record of the day
    holds 0. *)
Example shrinking_repository_counts_zero :
  fst (update_stats 3 shrinking fresh) = Ok tt
  /\ stats (snd (update_stats 3 shrinking fresh))
     = Holds (JList [record "2024-01-01" 0]).
Proof. split; reflexivity. Qed.

Example two_weeks_are_persisted :
  stats (snd (update_stats 3 (one_repo two_weeks) fresh))
  = Holds (JList [record "2024-01-01" 200]).
Proof. reflexivity. Qed.

(** One sample of four items stops the whole run: nothing is written. *)
Example long_sample_aborts_run :
  let E := one_repo [JList [JInt 1704067200; JInt 120; JInt (-30); JInt 0]] in
  fst (update_stats 3 E fresh) = Raise ValueError
  /\ stats (snd (update_stats 3 E fresh)) = Missing.
Proof. split; reflexivity. Qed.

Example overwrite_same_day :
  upsert [record "2024-01-01" 500] "2024-01-01" 700 = Ok [record "2024-01-01" 700].
Proof. reflexivity. Qed.

Example new_day_is_sorted_in :
  upsert [record "2024-01-02" 5; record "2024-01-01" 4] "2024-01-03" 6
  = Ok [record "2024-01-01" 4; record "2024-01-02" 5; record "2024-01-03" 6].
Proof. reflexivity. Qed.

Example no_content_is_empty_not_unavailable :
  fst (fetch_repo_code_frequency (JStr "octo") (JStr "repo") 5 8
         {| http := fun _ _ => Response 204 None; today := "2024-01-01";
            has_token := true; int_of_str := plain_decimal;
            disk := fun _ _ => Written |} fresh)
  = Ok (Some []).
Proof. reflexivity. Qed.

(** * Further properties *)

(** ** The listing *)

Lemma events_since_app s evs st :
  events_since s {| trace := trace s ++ evs; stats := st |} = evs.
Proof.
  unfold events_since. cbn [trace].
  now rewrite skipn_app, skipn_all, Nat.sub_diag.
Qed.

Lemma page_requests_next first n :
  page_requests first (S n)
  = Get (ListRepos first) :: page_requests (first + 1) n.
Proof.
  unfold page_requests. cbn [seq map]. rewrite Z.add_0_r. f_equal.
  rewrite <- seq_shift, map_map. apply map_ext. intros i.
  do 2 f_equal. lia.
Qed.

Lemma fetch_pages_serves E : forall pages fuel first acc s,
  Forall (fun p => p <> []) pages ->
  (List.length pages < fuel)%nat ->
  (forall h i, (i < List.length pages)%nat ->
     http E h (ListRepos (first + Z.of_nat i))
     = Response 200 (Some (JList (nth i pages [])))) ->
  (forall h, ends_listing
               (http E h (ListRepos (first + Z.of_nat (List.length pages)))) = true) ->
  exists evs,
    fetch_pages fuel first acc E s
    = (Ok (acc ++ List.concat pages), {| trace := trace s ++ evs; stats := stats s |})
    /\ filter is_get evs = page_requests first (S (List.length pages)).
Proof.
  induction pages as [|p pages IH]; intros fuel first acc s Hne Hfuel Hpages Hend;
    (destruct fuel as [|fuel]; [cbn in Hfuel; lia|]); cbn [fetch_pages].
  - specialize (Hend (trace s)). cbn [List.length] in Hend.
    rewrite Z.add_0_r in Hend. unfold bind at 1. unfold session_get.
    destruct (http E (trace s) (ListRepos first)) as [|st b]; [discriminate|].
    cbn [ends_listing] in Hend. cbn [status_code].
    rewrite page_requests_next. cbn [List.concat]. rewrite app_nil_r.
    destruct (st =? 200); cbn [negb].
    + destruct b as [j|]; [|discriminate]. unfold bind, resp_json, lift.
      cbn [body]. apply negb_true_iff in Hend. rewrite Hend. cbn [negb ret].
      exists [Get (ListRepos first)]. now split.
    + rewrite bind_print. cbn [ret].
      exists [Get (ListRepos first); Print Error]. split; [|reflexivity].
      unfold log. cbn [trace stats]. now rewrite <- app_assoc.
  - inversion Hne as [|? ? Hp Hrest]; subst.
    pose proof (Hpages (trace s) 0%nat ltac:(cbn; lia)) as Hfirst.
    cbn [Z.of_nat nth] in Hfirst. rewrite Z.add_0_r in Hfirst.
    rewrite (bind_session_get _ _ E s 200 _ Hfirst). cbn [status_code].
    change (200 =? 200) with true. cbn [negb].
    unfold resp_json. rewrite bind_lift. cbn [body].
    destruct p as [|x l]; [contradiction|]. cbn [truthy negb].
    rewrite bind_lift. cbn [py_iter]. rewrite bind_print.
    destruct (IH fuel (first + 1) (acc ++ x :: l)
                (log (Print Info) (log (Get (ListRepos first)) s)) Hrest)
      as (evs & Hrun & Hgets).
    + cbn [List.length] in Hfuel. lia.
    + intros h i Hi. specialize (Hpages h (S i) ltac:(cbn; lia)).
      cbn [nth] in Hpages. rewrite <- Hpages. do 2 f_equal. lia.
    + intros h. specialize (Hend h). rewrite <- Hend. do 3 f_equal.
      cbn [List.length]. lia.
    + rewrite Hrun. exists (Get (ListRepos first) :: Print Info :: evs). split.
      * cbn [List.concat log trace stats]. rewrite <- !app_assoc. reflexivity.
      * cbn [filter is_get List.length]. rewrite Hgets.
        now rewrite (page_requests_next first (S (List.length pages))).
Qed.

(** [non_fork] in one piece: the entries without a true [fork], in their
    order, or [AttributeError] when an entry is not an object. *)
Lemma non_fork_filter repos :
  non_fork repos
  = if forallb is_object repos
    then Ok (filter (fun r => negb (is_fork r)) repos)
    else Raise AttributeError.
Proof.
  induction repos as [|r rest IH]; [reflexivity|].
  cbn [non_fork forallb filter]. rewrite IH.
  destruct r as [| | | | | |d]; try reflexivity.
  cbn [py_get is_object is_fork obind andb].
  destruct (forallb is_object rest); [|reflexivity]. cbn [obind].
  destruct (dict_get "fork" d) as [v|]; cbn [truthy negb]; [|reflexivity].
  now destruct (truthy v).
Qed.

Lemma fetch_all_repos_run fuel E s :
  fetch_all_repos fuel E s
  = match fetch_pages fuel 1 [] E (log (Print Info) s) with
    | (Ok repos, s1) =>
        match non_fork repos with
        | Ok kept => (Ok kept, log (Print Info) s1)
        | Fail f => (Fail f, s1)
        end
    | (Fail f, s1) => (Fail f, s1)
    end.
Proof.
  unfold fetch_all_repos. rewrite bind_print. unfold bind at 1.
  destruct (fetch_pages fuel 1 [] E (log (Print Info) s)) as [[repos|f] s1];
    [|reflexivity].
  rewrite bind_lift. now destruct (non_fork repos).
Qed.

(** X1. Pages are asked for in order from page 1, one request each, until
    the first page that ends the listing; the result is the entries of all
    pages in order without the forks. *)
Theorem listing_is_the_pages_without_forks (E : env) (fuel : nat) (s : state)
    (pages : list (list json))
    (Hpages : serves_pages E pages)
    (Hitems : Forall (fun p => p <> []) pages)
    (Hfuel : (List.length pages < fuel)%nat) :
  fst (fetch_all_repos fuel E s)
  = (if forallb is_object (List.concat pages)
     then Ok (filter (fun r => negb (is_fork r)) (List.concat pages))
     else Raise AttributeError)
  /\ filter is_get (events_since s (snd (fetch_all_repos fuel E s)))
     = page_requests 1 (S (List.length pages)).
Proof.
  destruct Hpages as [Hserve Hend].
  destruct (fetch_pages_serves E pages fuel 1 [] (log (Print Info) s)
              Hitems Hfuel Hserve Hend) as (evs & Hrun & Hgets).
  rewrite fetch_all_repos_run, Hrun, app_nil_l, non_fork_filter.
  destruct (forallb is_object (List.concat pages)); unfold Raise; cbn [fst snd];
    (split; [reflexivity|]); unfold log; cbn [trace stats];
    rewrite <- !app_assoc, events_since_app; cbn [app filter is_get];
    rewrite ?filter_app, Hgets; cbn [filter is_get]; now rewrite ?app_nil_r.
Qed.

Lemma two_pages_served : serves_pages two_pages [[octo_repo; forked_repo]; [octo_repo]].
Proof.
  split.
  - intros h [|[|i]] Hi; [reflexivity|reflexivity|cbn in Hi; lia].
  - intros h. reflexivity.
Defined.

Lemma listing_pages_witness :
  serves_pages two_pages [[octo_repo; forked_repo]; [octo_repo]]
  /\ fst (fetch_all_repos 3 two_pages fresh) = Ok [octo_repo; octo_repo].
Proof.
  split; [exact two_pages_served|].
  refine (proj1 (listing_is_the_pages_without_forks two_pages 3 fresh
                   [[octo_repo; forked_repo]; [octo_repo]] two_pages_served _ _)).
  - repeat constructor; discriminate.
  - cbn. lia.
Defined.

(** X2. Whatever the service answers, a listing that returns holds only
    objects, none of them with a true [fork]. *)
Theorem listing_returns_no_fork (E : env) (fuel : nat) (s s' : state)
    (repos : list json)
    (Hrun : fetch_all_repos fuel E s = (Ok repos, s')) :
  Forall (fun r => is_object r = true /\ is_fork r = false) repos.
Proof.
  rewrite fetch_all_repos_run in Hrun.
  destruct (fetch_pages fuel 1 [] E (log (Print Info) s)) as [[all|f] s1];
    [|discriminate].
  rewrite non_fork_filter in Hrun.
  destruct (forallb is_object all) eqn:Hobj; [|discriminate].
  injection Hrun as <- _. apply Forall_forall. intros r Hr.
  apply filter_In in Hr as [Hin Hfork]. split.
  - rewrite forallb_forall in Hobj. now apply Hobj.
  - now apply negb_true_iff in Hfork.
Qed.

Lemma listing_returns_no_fork_witness :
  fetch_all_repos 3 two_pages fresh
  = (Ok [octo_repo; octo_repo],
     {| trace := [Print Info; Get (ListRepos 1); Print Info; Get (ListRepos 2);
                  Print Info; Get (ListRepos 3); Print Error; Print Info];
        stats := Missing |})
  /\ Forall (fun r => is_object r = true /\ is_fork r = false) [octo_repo; octo_repo].
Proof.
  split; [reflexivity|].
  exact (listing_returns_no_fork two_pages 3 fresh _ _ eq_refl).
Defined.

(** With no last page the paging loop uses up any fuel: one request for
    each unit, and no result. *)
Lemma fetch_pages_endless E :
  endless_listing E ->
  forall fuel page acc s,
    exists evs,
      fetch_pages fuel page acc E s
      = (Fail NoFuel, {| trace := trace s ++ evs; stats := stats s |})
      /\ gets evs = fuel.
Proof.
  intros Hend. induction fuel as [|fuel IH]; intros page acc s; cbn [fetch_pages].
  - exists []. rewrite app_nil_r. now destruct s.
  - destruct (Hend (trace s) page) as (x & l & Hpage).
    rewrite (bind_session_get _ _ E s 200 _ Hpage). cbn [status_code].
    change (200 =? 200) with true. cbn [negb].
    unfold resp_json. rewrite bind_lift. cbn [body truthy negb].
    rewrite bind_lift. cbn [py_iter]. rewrite bind_print.
    destruct (IH (page + 1) (acc ++ x :: l)
                (log (Print Info) (log (Get (ListRepos page)) s)))
      as (evs & Hrun & Hgets).
    exists (Get (ListRepos page) :: Print Info :: evs). rewrite Hrun. split.
    + unfold log. cbn [trace stats]. now rewrite <- !app_assoc.
    + unfold gets in *. cbn [filter is_get List.length]. now rewrite Hgets.
Qed.

(** X3. The paging loop has no bound of its own: against a service whose
    every page has an item it sends as many requests as it is given fuel
    for and never returns, so that the run gets no further than the
    listing and the store is left alone. *)
Theorem endless_listing_never_returns (E : env) (Hendless : endless_listing E)
    (fuel : nat) (s : state) :
  fst (update_stats fuel E s) = Fail NoFuel
  /\ stats (snd (update_stats fuel E s)) = stats s
  /\ gets (events_since s (snd (update_stats fuel E s))) = fuel.
Proof.
  rewrite update_stats_run, fetch_all_repos_run.
  assert (exists evs0,
            snd (get_session E s) = {| trace := trace s ++ evs0; stats := stats s |}
            /\ gets evs0 = 0%nat) as (evs0 & Hs0 & Hg0).
  { unfold get_session. destruct (has_token E).
    - exists []. rewrite app_nil_r. now destruct s.
    - now exists [Print Warn]. }
  rewrite Hs0.
  destruct (fetch_pages_endless E Hendless fuel 1 []
              (log (Print Info) {| trace := trace s ++ evs0; stats := stats s |}))
    as (evs & Hrun & Hgets).
  rewrite Hrun. cbn [fst snd log trace stats]. split; [reflexivity|].
  split; [reflexivity|]. rewrite <- !app_assoc, events_since_app.
  unfold gets in *. rewrite !filter_app, !length_app, Hg0, Hgets. reflexivity.
Qed.

Lemma endless_listing_witness :
  endless_listing same_page_for_ever
  /\ fst (update_stats 7 same_page_for_ever fresh) = Fail NoFuel.
Proof.
  assert (H : endless_listing same_page_for_ever).
  { intros h page. now exists octo_repo, []. }
  split; [exact H|].
  exact (proj1 (endless_listing_never_returns same_page_for_ever H 7 fresh)).
Defined.

(** ** The retry loop, further *)

Lemma gets_app evs evs' : gets (evs ++ evs') = (gets evs + gets evs')%nat.
Proof. unfold gets. now rewrite filter_app, length_app. Qed.

Lemma slept_app evs evs' : slept (evs ++ evs') = slept evs + slept evs'.
Proof.
  unfold slept. induction evs as [|e evs IH]; [reflexivity|].
  cbn [app fold_right]. rewrite IH. destruct e; lia.
Qed.

Lemma gets_waiting_rounds r b k : gets (waiting_rounds r b k) = k.
Proof.
  induction k as [|k IH]; [reflexivity|].
  unfold gets in *. cbn [waiting_rounds filter is_get List.length]. now rewrite IH.
Qed.

Lemma slept_waiting_rounds r b k : slept (waiting_rounds r b k) = b * Z.of_nat k.
Proof.
  induction k as [|k IH]; [cbn; lia|].
  cbn [waiting_rounds slept fold_right] in *. unfold slept in IH. rewrite IH. lia.
Qed.

(** The attempts that find the statistics still computing are gone
    through one after the other. *)
Lemma attempts_wait E owner name retries backoff rest early :
  Forall (fun attempt => attempt <> retries) early ->
  forall s,
    (forall h, (gets (trace s) <= gets h < gets (trace s) + List.length early)%nat ->
       exists b, http E h (CodeFrequency owner name) = Response 202 b) ->
    code_frequency_attempts owner name retries backoff (early ++ rest) E s
    = code_frequency_attempts owner name retries backoff rest E
        {| trace := trace s
                    ++ waiting_rounds (CodeFrequency owner name) backoff
                         (List.length early);
           stats := stats s |}.
Proof.
  induction 1 as [|attempt early Hne _ IH]; intros s Hbusy.
  - cbn [app List.length waiting_rounds]. rewrite app_nil_r. now destruct s.
  - cbn [app code_frequency_attempts List.length waiting_rounds].
    destruct (Hbusy (trace s)) as [b Hb]; [cbn [List.length]; lia|].
    rewrite (bind_session_get _ _ E s 202 b Hb). cbn [status_code].
    rewrite Z.eqb_refl. apply Z.eqb_neq in Hne. rewrite Hne.
    rewrite bind_print, bind_sleep, IH.
    + now rewrite !log_trace.
    + intros h Hh. apply Hbusy. unfold log in Hh. cbn [trace List.length] in *.
      rewrite !gets_app in Hh. cbn in Hh. lia.
Qed.

(** X4. When the weekly statistics are ready at the request after [k]
    answers 202, with [k] at most 4, [fetch_repo_code_frequency] returns
    them after exactly [k] waits of 8 seconds and [k + 1] requests. *)
Theorem statistics_ready_after_waiting (E : env) (s : state) (owner name : json)
    (k : nat) (samples : list json)
    (Hk : (k <= 4)%nat)
    (Hready : ready_after E (CodeFrequency owner name) (gets (trace s)) k samples) :
  fetch_repo_code_frequency owner name default_retries default_backoff_seconds E s
  = (Ok (Some samples),
     {| trace := trace s
                 ++ waiting_rounds (CodeFrequency owner name) 8 k
                 ++ [Get (CodeFrequency owner name)];
        stats := stats s |})
  /\ slept (waiting_rounds (CodeFrequency owner name) 8 k
            ++ [Get (CodeFrequency owner name)]) = 8 * Z.of_nat k.
Proof.
  destruct Hready as [Hbusy Hdone]. split.
  - unfold fetch_repo_code_frequency. rewrite default_attempts.
    assert (exists early attempt later,
              [1; 2; 3; 4; 5] = early ++ attempt :: later
              /\ List.length early = k
              /\ Forall (fun a => a <> default_retries) early)
      as (early & attempt & later & -> & Hlen & Hearly).
    { destruct k as [|[|[|[|[|k]]]]]; [| | | | |lia].
      - exists [], 1, [2; 3; 4; 5]. repeat split. constructor.
      - exists [1], 2, [3; 4; 5]. repeat split. repeat constructor; discriminate.
      - exists [1; 2], 3, [4; 5]. repeat split. repeat constructor; discriminate.
      - exists [1; 2; 3], 4, [5]. repeat split. repeat constructor; discriminate.
      - exists [1; 2; 3; 4], 5, []. repeat split. repeat constructor; discriminate. }
    rewrite (attempts_wait E owner name default_retries default_backoff_seconds
               (attempt :: later) early Hearly s)
      by (rewrite Hlen; exact Hbusy).
    rewrite Hlen. cbn [code_frequency_attempts].
    rewrite (bind_session_get _ _ E _ 200 (Some (JList samples))).
    + cbn [status_code]. change (200 =? 202) with false.
      change (200 =? 204) with false. change (200 =? 200) with true.
      cbn [negb]. unfold resp_json. rewrite bind_lift. cbn [body ret].
      unfold log. cbn [trace stats]. now rewrite <- app_assoc.
    + apply Hdone. cbn [trace]. now rewrite gets_app, gets_waiting_rounds.
  - rewrite slept_app, slept_waiting_rounds. cbn. lia.
Qed.

Lemma statistics_ready_witness :
  ready_after ready_at_third (CodeFrequency (JStr "octo") (JStr "repo"))
    (gets (trace fresh)) 2 two_weeks
  /\ fst (fetch_repo_code_frequency (JStr "octo") (JStr "repo")
            default_retries default_backoff_seconds ready_at_third fresh)
     = Ok (Some two_weeks).
Proof.
  assert (H : ready_after ready_at_third (CodeFrequency (JStr "octo") (JStr "repo"))
                (gets (trace fresh)) 2 two_weeks).
  { split; intros h Hh; cbn [ready_at_third http].
    - exists None. destruct (Nat.ltb_spec (gets h) 2) as [_|Hge]; [reflexivity|].
      cbn in Hh. lia.
    - destruct (Nat.ltb_spec (gets h) 2) as [Hlt|_]; [|reflexivity].
      cbn in Hh. lia. }
  split; [exact H|].
  exact (f_equal fst (proj1 (statistics_ready_after_waiting ready_at_third fresh
                               (JStr "octo") (JStr "repo") 2 two_weeks
                               ltac:(lia) H))).
Defined.

(** ** What a run can cost *)

Lemma costs_ret {A} (a : A) : costs (ret a) 0 0.
Proof. intros E s. exists []. cbn. rewrite app_nil_r. repeat split; lia. Qed.

Lemma costs_fail {A} (f : failure) : costs (fun _ s => (@Fail A f, s)) 0 0.
Proof. intros E s. exists []. cbn. rewrite app_nil_r. repeat split; lia. Qed.

Lemma costs_lift {A} (o : env -> outcome A) : costs (lift o) 0 0.
Proof. intros E s. exists []. cbn. rewrite app_nil_r. repeat split; lia. Qed.

Lemma costs_print l : costs (print l) 0 0.
Proof. intros E s. exists [Print l]. cbn. repeat split; lia. Qed.

Lemma costs_session_get r : costs (session_get r) 1 0.
Proof.
  intros E s. exists [Get r]. unfold session_get.
  destruct (http E (trace s) r); cbn; repeat split; lia.
Qed.

Lemma costs_more {A} (m : M A) g z g' z' :
  costs m g z -> (g <= g')%nat -> z <= z' -> costs m g' z'.
Proof.
  intros Hm Hg Hz E s. destruct (Hm E s) as (evs & Ht & Hgets & Hslept).
  exists evs. repeat split; try assumption; lia.
Qed.

Lemma costs_bind {A B} (m : M A) (k : A -> M B) g1 z1 g2 z2 :
  costs m g1 z1 -> 0 <= z2 -> (forall a, costs (k a) g2 z2) ->
  costs (bind m k) (g1 + g2) (z1 + z2).
Proof.
  intros Hm Hz2' Hk E s. destruct (Hm E s) as (evs1 & Ht1 & Hg1 & Hz1). unfold bind.
  destruct (m E s) as [[a|f] s1]; cbn [snd] in *.
  - destruct (Hk a E s1) as (evs2 & Ht2 & Hg2 & Hz2). exists (evs1 ++ evs2).
    rewrite Ht2, Ht1, app_assoc, gets_app, slept_app. repeat split; lia.
  - exists evs1. repeat split; try assumption; lia.
Qed.

(** A step that costs nothing, before a computation. *)
Lemma costs_after {A B} (m : M A) (k : A -> M B) g z :
  costs m 0 0 -> 0 <= z -> (forall a, costs (k a) g z) -> costs (bind m k) g z.
Proof. intros Hm Hz Hk. apply (costs_bind m k 0 0 g z Hm Hz Hk). Qed.

(** The retry loop over attempts that end with the last one allowed. *)
Lemma costs_code_frequency_attempts owner name retries backoff early :
  0 <= backoff ->
  costs (code_frequency_attempts owner name retries backoff (early ++ [retries]))
    (S (List.length early)) (backoff * Z.of_nat (List.length early)).
Proof.
  intros Hb. induction early as [|attempt early IH];
    cbn [app code_frequency_attempts List.length].
  - apply (costs_more _ (1 + 0) (0 + 0)); [|lia|cbn; lia].
    apply (costs_bind _ _ 1 0 0 0 (costs_session_get _)); [lia|]. intros resp.
    rewrite Z.eqb_refl.
    assert (Hline : forall (v : option (list json)) l,
              costs (bind (print l) (fun _ => ret v)) 0 0).
    { intros v l. apply costs_after; [apply costs_print|lia|intros; apply costs_ret]. }
    destruct (status_code resp =? 202); [apply Hline|].
    destruct (status_code resp =? 204); [apply Hline|].
    destruct (negb (status_code resp =? 200)); [apply Hline|].
    apply costs_after; [apply costs_lift|lia|].
    intros [| | | | |samples|]; try apply Hline. apply costs_ret.
  - apply (costs_more _ (1 + S (List.length early))
             (0 + backoff * Z.of_nat (S (List.length early)))); [|lia|lia].
    apply costs_bind; [apply costs_session_get|lia|]. intros resp.
    assert (Hline : forall (v : option (list json)) l g z,
              0 <= z -> costs (bind (print l) (fun _ => ret v)) g z).
    { intros v l g z Hz. apply (costs_more _ 0 0); [|lia|lia].
      apply costs_after; [apply costs_print|lia|intros; apply costs_ret]. }
    assert (Hz : 0 <= backoff * Z.of_nat (S (List.length early))) by lia.
    destruct (status_code resp =? 202).
    + destruct (attempt =? retries); [now apply Hline|].
      apply costs_after; [apply costs_print|lia|]. intros _.
      intros E s. destruct (IH E (log (Sleep backoff) s)) as (evs & Ht & Hg & Hs).
      exists (Sleep backoff :: evs). unfold bind, sleep, emit. rewrite Ht.
      unfold log. cbn [trace]. rewrite <- app_assoc. split; [reflexivity|].
      unfold gets in *. cbn [filter is_get slept fold_right] in *.
      unfold slept in Hs. split; [lia|]. lia.
    + destruct (status_code resp =? 204); [now apply Hline|].
      destruct (negb (status_code resp =? 200)); [now apply Hline|].
      apply (costs_more _ 0 0); [|lia|lia].
      apply costs_after; [apply costs_lift|lia|].
      intros [| | | | |samples|]; try (apply Hline; lia). apply costs_ret.
Qed.

(** X5. Whatever the service answers, [fetch_repo_code_frequency] sends at
    most 5 requests and sleeps at most 32 seconds, and leaves the store
    alone. *)
Theorem code_frequency_costs_five_requests (E : env) (s : state) (owner name : json) :
  (gets (events_since s
           (snd (fetch_repo_code_frequency owner name default_retries
                   default_backoff_seconds E s))) <= 5)%nat
  /\ 0 <= slept (events_since s
                   (snd (fetch_repo_code_frequency owner name default_retries
                           default_backoff_seconds E s))) <= 32
  /\ stats (snd (fetch_repo_code_frequency owner name default_retries
                   default_backoff_seconds E s)) = stats s.
Proof.
  unfold fetch_repo_code_frequency. rewrite default_attempts.
  change [1; 2; 3; 4; 5] with ([1; 2; 3; 4] ++ [default_retries]).
  destruct (costs_code_frequency_attempts owner name default_retries
              default_backoff_seconds [1; 2; 3; 4] ltac:(discriminate) E s)
    as (evs & Ht & Hg & Hs).
  pose proof (quiet_stats _ E s
                (quiet_code_frequency_attempts owner name default_retries
                   default_backoff_seconds ([1; 2; 3; 4] ++ [default_retries])))
    as Hstats.
  unfold events_since. rewrite Ht, skipn_app, skipn_all, Nat.sub_diag.
  cbn [skipn app]. cbn in Hg, Hs. repeat split; try lia. exact Hstats.
Qed.

Lemma costs_line {A} (v : A) l g z :
  0 <= z -> costs (bind (print l) (fun _ => ret v)) g z.
Proof.
  intros Hz. apply (costs_more _ 0 0); [|lia|lia].
  apply costs_after; [apply costs_print|lia|intros; apply costs_ret].
Qed.

Lemma costs_fetch_repo_languages owner name :
  costs (fetch_repo_languages owner name) 1 0.
Proof.
  unfold fetch_repo_languages.
  apply (costs_bind _ _ 1 0 0 0 (costs_session_get _)); [lia|]. intros resp.
  destruct (negb (status_code resp =? 200)); [apply costs_line; lia|].
  apply costs_after; [apply costs_lift|lia|].
  intros [| | | | | |d]; try apply costs_ret.
  apply costs_after; [apply costs_lift|lia|]. intros langs. apply costs_ret.
Qed.

Lemma costs_languages_estimate langs : costs (languages_estimate langs) 0 0.
Proof.
  destruct langs as [[|kv d]|]; cbn [languages_estimate]; try apply costs_ret.
  apply costs_line. lia.
Qed.

Lemma costs_repo_estimate owner name : costs (repo_estimate owner name) 6 32.
Proof.
  unfold repo_estimate, fetch_repo_code_frequency. rewrite default_attempts.
  change [1; 2; 3; 4; 5] with ([1; 2; 3; 4] ++ [default_retries]).
  apply (costs_bind _ _ 5 32 1 0); [|lia|].
  - exact (costs_code_frequency_attempts owner name default_retries
             default_backoff_seconds [1; 2; 3; 4] ltac:(discriminate)).
  - intros [weeks|].
    + apply (costs_more _ 0 0); [apply costs_lift|lia|lia].
    + apply (costs_bind _ _ 1 0 0 0 (costs_fetch_repo_languages owner name)); [lia|].
      intros langs. apply costs_languages_estimate.
Qed.

Lemma costs_count_repo repo total : costs (count_repo repo total) 6 32.
Proof.
  unfold count_repo.
  do 4 (apply costs_after; [apply costs_lift|lia|]; intros ?).
  match goal with |- costs (if ?b then _ else _) _ _ => destruct b end.
  - apply (costs_more _ 0 0); [apply costs_ret|lia|lia].
  - apply costs_after; [apply costs_print|lia|]. intros _.
    apply (costs_bind _ _ 6 32 0 0 (costs_repo_estimate _ _)); [lia|]. intros rt.
    apply costs_line. lia.
Qed.

Lemma costs_total_over repos : forall total,
  costs (total_over repos total)
    (6 * List.length repos) (32 * Z.of_nat (List.length repos)).
Proof.
  induction repos as [|repo rest IH]; intros total; cbn [total_over List.length].
  - apply costs_ret.
  - apply (costs_more _ (6 + 6 * List.length rest)
             (32 + 32 * Z.of_nat (List.length rest))); [|lia|lia].
    apply costs_bind; [apply costs_count_repo|lia|]. intros total'. apply IH.
Qed.

(** X6. Whatever the service answers, the estimate over [n] repositories
    sends at most [6 n] requests and sleeps at most [32 n] seconds, and
    does not touch the store. *)
Theorem estimate_costs_six_requests_a_repository (E : env) (s : state)
    (repos : list json) :
  (gets (events_since s (snd (compute_total_lines repos E s)))
   <= 6 * List.length repos)%nat
  /\ slept (events_since s (snd (compute_total_lines repos E s)))
     <= 32 * Z.of_nat (List.length repos)
  /\ stats (snd (compute_total_lines repos E s)) = stats s.
Proof.
  assert (Hcosts : costs (compute_total_lines repos)
                     (6 * List.length repos) (32 * Z.of_nat (List.length repos))).
  { unfold compute_total_lines.
    apply (costs_more _ (6 * List.length repos + 0)
             (32 * Z.of_nat (List.length repos) + 0)); [|lia|lia].
    apply costs_bind; [apply costs_total_over|lia|]. intros total.
    apply costs_line. lia. }
  destruct (Hcosts E s) as (evs & Ht & Hg & Hs).
  unfold events_since. rewrite Ht, skipn_app, skipn_all, Nat.sub_diag.
  cbn [skipn app]. repeat split; try lia.
  apply quiet_stats, quiet_compute_total_lines.
Qed.

(** ** The estimate of one repository and the total *)

Lemma fetch_repo_languages_run owner name E s :
  fetch_repo_languages owner name E s
  = match http E (trace s) (Languages owner name) with
    | ConnectionFailed => (Raise RequestError, log (Get (Languages owner name)) s)
    | Response st b =>
        if st =? 200 then
          match b with
          | None => (Raise ValueError, log (Get (Languages owner name)) s)
          | Some (JDict d) =>
              (obind (int_values E d) (fun langs => Ok (Some langs)),
               log (Get (Languages owner name)) s)
          | Some _ => (Ok None, log (Get (Languages owner name)) s)
          end
        else (Ok None, log (Print Warn) (log (Get (Languages owner name)) s))
    end.
Proof.
  unfold fetch_repo_languages, bind at 1, session_get.
  destruct (http E (trace s) (Languages owner name)) as [|st b]; [reflexivity|].
  cbn [status_code]. destruct (st =? 200); cbn [negb]; [|reflexivity].
  unfold resp_json. rewrite bind_lift. cbn [body].
  destruct b as [[| | | | | |d]|]; try reflexivity.
  rewrite bind_lift. now destruct (int_values E d).
Qed.

Lemma byte_sum_nil : byte_sum [] / 50 = 0.
Proof. reflexivity. Qed.

(** X7. The estimate of a repository takes the first source that is
    available.  With weekly statistics (an empty list included) it is their
    sum and nothing more is requested.  Without them the languages are
    requested once: a mapping of byte counts gives their sum divided by 50,
    and a status other than 200 or a body that is not a mapping gives 0. *)
Theorem estimate_takes_first_available (E : env) (s s1 : state) (owner name : json)
    (freq : option (list json))
    (Hfetch : fetch_repo_code_frequency owner name default_retries
                default_backoff_seconds E s = (Ok freq, s1)) :
  match freq with
  | Some samples => repo_estimate owner name E s = (sum_weeks E samples 0, s1)
  | None =>
      (forall st b,
         http E (trace s1) (Languages owner name) = Response st b -> st <> 200 ->
         repo_estimate owner name E s
         = (Ok 0, log (Print Warn) (log (Get (Languages owner name)) s1)))
      /\ (forall j,
            http E (trace s1) (Languages owner name) = Response 200 (Some j) ->
            is_object j = false ->
            repo_estimate owner name E s
            = (Ok 0, log (Get (Languages owner name)) s1))
      /\ (forall langs,
            http E (trace s1) (Languages owner name)
            = Response 200 (Some (JDict (json_of_bytes langs))) ->
            fst (repo_estimate owner name E s) = Ok (byte_sum langs / 50)
            /\ gets (events_since s1 (snd (repo_estimate owner name E s))) = 1%nat)
  end.
Proof.
  assert (Hrun : repo_estimate owner name E s
                 = match freq with
                   | Some weeks => (sum_weeks E weeks 0, s1)
                   | None =>
                       match fetch_repo_languages owner name E s1 with
                       | (Ok langs, s2) => languages_estimate langs E s2
                       | (Fail f, s2) => (Fail f, s2)
                       end
                   end).
  { unfold repo_estimate. unfold bind at 1. rewrite Hfetch.
    now destruct freq. }
  destruct freq as [samples|]; [exact Hrun|].
  rewrite Hrun, fetch_repo_languages_run. repeat split.
  - intros st b -> Hst. apply Z.eqb_neq in Hst. now rewrite Hst.
  - intros j -> Hj. change (200 =? 200) with true. cbn iota.
    destruct j; try reflexivity. discriminate Hj.
  - rewrite H. change (200 =? 200) with true. cbn iota.
    rewrite int_values_of_bytes. cbn [obind].
    destruct langs as [|kv langs]; [reflexivity|].
    cbn [languages_estimate]. now rewrite bind_print.
  - rewrite H. change (200 =? 200) with true. cbn iota.
    rewrite int_values_of_bytes. cbn [obind].
    destruct langs as [|kv langs]; cbn [languages_estimate];
      rewrite ?bind_print; cbn [ret snd]; unfold log;
      cbn [trace stats]; rewrite <- ?app_assoc, events_since_app; reflexivity.
Qed.

(** A service without weekly statistics, with byte counts. *)
Lemma estimate_fallback_witness :
  fetch_repo_code_frequency (JStr "octo") (JStr "repo") default_retries
    default_backoff_seconds two_pages fresh
  = (Ok None,
     {| trace := [Get (CodeFrequency (JStr "octo") (JStr "repo")); Print Warn];
        stats := Missing |})
  /\ repo_estimate (JStr "octo") (JStr "repo") two_pages fresh
     = (Ok 0,
        {| trace := [Get (CodeFrequency (JStr "octo") (JStr "repo")); Print Warn;
                     Get (Languages (JStr "octo") (JStr "repo")); Print Warn];
           stats := Missing |}).
Proof.
  split; [reflexivity|].
  exact (proj1 (estimate_takes_first_available two_pages fresh _
                  (JStr "octo") (JStr "repo") None eq_refl)
           404 None eq_refl ltac:(discriminate)).
Defined.

Lemma count_repo_shift repo total c E s :
  count_repo repo (total + c) E s
  = match count_repo repo total E s with
    | (Ok total', s') => (Ok (total' + c), s')
    | (Fail f, s') => (Fail f, s')
    end.
Proof.
  unfold count_repo. rewrite ?bind_lift.
  destruct (py_get repo "full_name" (JStr "")) as [full_name|f]; [|reflexivity].
  rewrite ?bind_lift.
  destruct (py_get repo "owner" (JDict [])) as [owner_obj|f]; [|reflexivity].
  rewrite ?bind_lift.
  destruct (py_get owner_obj "login" (JStr "")) as [owner|f]; [|reflexivity].
  rewrite ?bind_lift.
  destruct (py_get repo "name" (JStr "")) as [name|f]; [|reflexivity].
  destruct (negb (truthy owner) || negb (truthy name)); [reflexivity|].
  rewrite !bind_print. unfold bind at 1 3.
  destruct (repo_estimate owner name E (log (Print Info) s)) as [[rt|f] s'];
    [|reflexivity].
  rewrite !bind_print. unfold ret. cbv iota. do 2 f_equal. lia.
Qed.

Lemma total_over_shift repos : forall total c E s,
  total_over repos (total + c) E s
  = match total_over repos total E s with
    | (Ok total', s') => (Ok (total' + c), s')
    | (Fail f, s') => (Fail f, s')
    end.
Proof.
  induction repos as [|repo rest IH]; intros total c E s; [reflexivity|].
  cbn [total_over]. unfold bind. rewrite count_repo_shift.
  destruct (count_repo repo total E s) as [[total'|f] s']; [apply IH|reflexivity].
Qed.

(** X8. The totals of two lists of repositories add up: the loop over
    [before ++ after] returns the total of [before] plus the total that
    [after] gives from the state [before] left; and the last clamp of
    [compute_total_lines] changes nothing, the value returned being the
    running total itself. *)
Theorem totals_add_up (E : env) (s : state) (before after : list json) :
  total_over (before ++ after) 0 E s
  = match total_over before 0 E s with
    | (Ok subtotal, s') =>
        match total_over after 0 E s' with
        | (Ok rest, s'') => (Ok (subtotal + rest), s'')
        | (Fail f, s'') => (Fail f, s'')
        end
    | (Fail f, s') => (Fail f, s')
    end
  /\ compute_total_lines after E s
     = match total_over after 0 E s with
       | (Ok total, s') => (Ok total, log (Print Info) s')
       | (Fail f, s') => (Fail f, s')
       end.
Proof.
  split.
  - rewrite total_over_app.
    destruct (total_over before 0 E s) as [[subtotal|f] s']; [|reflexivity].
    replace subtotal with (0 + subtotal) at 1 by lia.
    rewrite total_over_shift.
    destruct (total_over after 0 E s') as [[rest|f] s'']; [|reflexivity].
    do 2 f_equal. lia.
  - unfold compute_total_lines, bind at 1.
    destruct (total_over after 0 E s) as [[total|f] s'] eqn:Hrun; [|reflexivity].
    rewrite bind_print. unfold ret. do 2 f_equal.
    pose proof (total_over_grows after 0 E s total s' Hrun) as Hge.
    cbv beta in Hge. lia.
Qed.

(** ** The merge, further *)

Lemma dated_other_date today d e :
  dated today e = true -> d <> today -> dated d e = false.
Proof.
  intros Htoday Hd. destruct (dated d e) eqn:He; [|reflexivity].
  apply dated_date_of in Htoday, He. congruence.
Qed.

Lemma in_sort_entries e l : In e (sort_entries l) <-> In e l.
Proof.
  split; apply Permutation_in; [|apply Permutation_sym]; apply sort_entries_perm.
Qed.

(** X9. On a list of records the merge touches no record of another date:
    the records that are not of the date are the same before and after,
    every other date has as many records as it had, and a list with at
    most one record for each date stays one. *)
Theorem upsert_leaves_other_dates (existing : list json) (date : string) (total : Z)
    (Hrecords : forallb well_dated existing = true) :
  exists merged,
    upsert existing date total = Ok merged
    /\ (forall e, dated date e = false -> (In e merged <-> In e existing))
    /\ (forall d, d <> date -> count_dated d merged = count_dated d existing)
    /\ ((forall d, (count_dated d existing <= 1)%nat) ->
        forall d, (count_dated d merged <= 1)%nat).
Proof.
  destruct (upsert_well_dated date total existing Hrecords)
    as (l1 & Hfrom & _ & Hrun).
  exists (sort_entries l1). split; [exact Hrun|].
  assert (Hother : forall d, d <> date ->
            count_dated d (sort_entries l1) = count_dated d existing).
  { intros d Hd. rewrite (count_dated_perm d _ _ (sort_entries_perm l1)).
    destruct Hfrom as [pre e post Heq Hpre He|Hex].
    - rewrite Heq, !count_dated_app, !count_dated_cons, dated_with_total.
      reflexivity.
    - rewrite count_dated_app, count_dated_cons.
      rewrite (dated_other_date date d (new_record date total)
                 (dated_new_record date total) Hd).
      cbn. lia. }
  split; [|split; [exact Hother|]].
  - intros e He. rewrite in_sort_entries.
    destruct Hfrom as [pre e0 post Heq Hpre He0|Hex].
    + rewrite Heq, !in_app_iff. cbn [In].
      assert (with_total total e0 <> e)
        by (intros <-; rewrite dated_with_total in He; congruence).
      assert (e0 <> e) by congruence. tauto.
    + rewrite in_app_iff. cbn [In].
      assert (new_record date total <> e)
        by (intros <-; rewrite dated_new_record in He; discriminate).
      tauto.
  - intros Hone d. destruct (String.eqb_spec d date) as [->|Hd].
    + rewrite (count_dated_perm date _ _ (sort_entries_perm l1)).
      rewrite (merged_from_count date total existing l1 Hfrom).
      specialize (Hone date). lia.
    + rewrite (Hother d Hd). apply Hone.
Qed.

Lemma upsert_other_dates_witness :
  forallb well_dated [record "2024-01-02" 5; record "2024-01-01" 4] = true
  /\ exists merged,
       upsert [record "2024-01-02" 5; record "2024-01-01" 4] "2024-01-01" 9
         = Ok merged
       /\ (In (record "2024-01-02" 5) merged
           <-> In (record "2024-01-02" 5)
                 [record "2024-01-02" 5; record "2024-01-01" 4]).
Proof.
  split; [reflexivity|].
  destruct (upsert_leaves_other_dates
              [record "2024-01-02" 5; record "2024-01-01" 4] "2024-01-01" 9
              eq_refl) as (merged & Hrun & Hsame & _).
  exists merged. split; [exact Hrun|]. now apply Hsame.
Defined.

Lemma overwrite_today_at today total pre : forall e post,
  forallb well_dated (pre ++ e :: post) = true ->
  existsb (dated today) pre = false ->
  dated today e = true ->
  overwrite_today today total (pre ++ e :: post)
  = Ok (true, pre ++ with_total total e :: post).
Proof.
  induction pre as [|x pre IH]; intros e post Hw Hpre He; cbn [app] in *.
  - cbn [forallb] in Hw. apply andb_prop in Hw as [Hwe _].
    now rewrite (overwrite_today_cons _ _ _ _ Hwe), He.
  - cbn [forallb existsb] in *. apply andb_prop in Hw as [Hx Hw].
    apply orb_false_elim in Hpre as [Hdx Hpre].
    now rewrite (overwrite_today_cons _ _ _ _ Hx), Hdx, (IH e post Hw Hpre He).
Qed.

Lemma sorted_same_dates l : forall l',
  map date_of l = map date_of l' -> Sorted date_le l -> Sorted date_le l'.
Proof.
  induction l as [|x l IH]; intros [|y l'] Hmap Hs; try discriminate;
    [constructor|].
  cbn [map] in Hmap. injection Hmap as Hxy Hmap.
  inversion Hs as [|? ? Hl Hhd]; subst. constructor; [now apply IH|].
  destruct l' as [|z l']; [constructor|].
  destruct l as [|w l]; [discriminate|]. cbn [map] in Hmap.
  injection Hmap as Hwz _. inversion Hhd; subst. constructor.
  unfold date_le in *. now rewrite <- Hxy, <- Hwz.
Qed.

Lemma sorted_snoc l x :
  Sorted date_le l -> Forall (fun e => date_le e x) l -> Sorted date_le (l ++ [x]).
Proof.
  induction 1 as [|y l Hl IH Hy]; intros Hall; cbn [app].
  - repeat constructor.
  - inversion Hall as [|? ? Hyx Hrest]; subst. constructor; [now apply IH|].
    destruct Hy as [|z l Hyz]; cbn [app]; now constructor.
Qed.

(** X10. On a store that is already in date order nothing moves: the
    record of the day is overwritten where it stands, and a day later than
    every date of the store gets its record at the end. *)
Theorem sorted_store_keeps_its_order (existing : list json) (date : string)
    (total : Z)
    (Hrecords : forallb well_dated existing = true)
    (Hsorted : Sorted date_le existing) :
  (forall pre e post,
     existing = pre ++ e :: post ->
     existsb (dated date) pre = false ->
     dated date e = true ->
     upsert existing date total = Ok (pre ++ with_total total e :: post))
  /\ (existsb (dated date) existing = false ->
      Forall (fun e => String.leb (date_of e) date = true) existing ->
      upsert existing date total = Ok (existing ++ [new_record date total])).
Proof.
  split.
  - intros pre e post -> Hpre He. unfold upsert.
    rewrite (overwrite_today_at date total pre e post Hrecords Hpre He).
    cbn [obind fst snd].
    rewrite sort_by_date_well_dated
      by now apply forallb_well_dated_overwrite.
    f_equal. apply sort_entries_fixed.
    apply (sorted_same_dates (pre ++ e :: post)); [|exact Hsorted].
    rewrite !map_app. cbn [map]. now rewrite date_of_with_total.
  - intros Hex Hbefore. unfold upsert.
    rewrite (overwrite_today_absent date total existing Hrecords Hex).
    cbn [obind fst snd].
    rewrite sort_by_date_well_dated by (rewrite forallb_app, Hrecords; reflexivity).
    f_equal. apply sort_entries_fixed, sorted_snoc; [exact Hsorted|].
    exact Hbefore.
Qed.

Lemma sorted_store_witness :
  forallb well_dated [record "2024-01-01" 4; record "2024-01-02" 5] = true
  /\ Sorted date_le [record "2024-01-01" 4; record "2024-01-02" 5]
  /\ upsert [record "2024-01-01" 4; record "2024-01-02" 5] "2024-01-01" 9
     = Ok [record "2024-01-01" 9; record "2024-01-02" 5].
Proof.
  assert (Hs : Sorted date_le [record "2024-01-01" 4; record "2024-01-02" 5])
    by (repeat constructor).
  split; [reflexivity|]. split; [exact Hs|].
  exact (proj1 (sorted_store_keeps_its_order
                  [record "2024-01-01" 4; record "2024-01-02" 5] "2024-01-01" 9
                  eq_refl Hs)
           [] (record "2024-01-01" 4) [record "2024-01-02" 5]
           eq_refl eq_refl eq_refl).
Defined.

Lemma filter_insert_entry d x l :
  filter (sorted_under d) (insert_entry x l) = filter (sorted_under d) (x :: l).
Proof.
  induction l as [|y l IH]; [reflexivity|].
  cbn [insert_entry]. destruct (String.ltb (date_of y) (date_of x)) eqn:Hlt;
    [|reflexivity].
  cbn [filter] in *. rewrite IH.
  destruct (sorted_under d x) eqn:Hx, (sorted_under d y) eqn:Hy; try reflexivity.
  unfold sorted_under in Hx, Hy. apply String.eqb_eq in Hx, Hy.
  rewrite Hx, Hy, string_ltb_irrefl in Hlt. discriminate.
Qed.

(** X11. The sort is stable: on a list of records it returns the records
    of each date in the order they had. *)
Theorem sort_keeps_order_within_a_date (l : list json)
    (Hrecords : forallb well_dated l = true) :
  exists sorted,
    sort_by_date l = Ok sorted
    /\ forall d, filter (sorted_under d) sorted = filter (sorted_under d) l.
Proof.
  exists (sort_entries l). split; [now apply sort_by_date_well_dated|].
  intros d. clear Hrecords. induction l as [|x l IH]; [reflexivity|].
  cbn [sort_entries]. rewrite filter_insert_entry. cbn [filter]. now rewrite IH.
Qed.

Lemma sort_stable_witness :
  forallb well_dated
    [record "2024-01-02" 1; record "2024-01-01" 2; record "2024-01-02" 3] = true
  /\ exists sorted,
       sort_by_date
         [record "2024-01-02" 1; record "2024-01-01" 2; record "2024-01-02" 3]
       = Ok sorted
       /\ filter (sorted_under "2024-01-02") sorted
          = [record "2024-01-02" 1; record "2024-01-02" 3].
Proof.
  split; [reflexivity|].
  destruct (sort_keeps_order_within_a_date
              [record "2024-01-02" 1; record "2024-01-01" 2; record "2024-01-02" 3]
              eq_refl) as (sorted & Hrun & Hsame).
  exists sorted. split; [exact Hrun|]. exact (Hsame "2024-01-02").
Defined.

(** ** The run and the store *)

Lemma load_events E s :
  exists evs existing,
    load_existing_stats E s
    = (Ok existing, {| trace := trace s ++ evs; stats := stats s |})
    /\ gets evs = 0%nat /\ slept evs = 0 /\ filter is_write evs = [].
Proof.
  destruct s as [tr st]. unfold load_existing_stats, bind, emit, read_file, print,
    emit, ret, log. cbn [trace stats].
  destruct st as [| |[| | | | |l|]]; cbn [trace stats];
    rewrite <- ?app_assoc; cbn [app];
    eexists; eexists; (split; [reflexivity|]); repeat split.
Qed.

(** X12. A run reaches the file only after its last request and sleep,
    and tries to write it at most once, as its last access to it.  A run
    that does not reach the write (an early return, an exception, no fuel
    left) leaves the file as it was.  At the write, the run returns with
    the file holding the records when the write succeeds; it raises
    [OSError] with the file as it was when the file cannot be opened; and
    when the dump breaks after the file was opened it raises with the file
    holding a part of the text, which does not decode, or all of it. *)
Theorem store_is_written_once_at_the_end (fuel : nat) (E : env) (s : state) :
  exists net tail,
    events_since s (snd (update_stats fuel E s)) = net ++ tail
    /\ forallb file_free net = true
    /\ gets tail = 0%nat /\ slept tail = 0
    /\ ((filter is_write tail = []
         /\ stats (snd (update_stats fuel E s)) = stats s)
        \/ exists data before,
             filter is_write before = []
             /\ match disk E (trace s ++ net ++ before) data with
                | Written =>
                    tail = before ++ [WriteStats data; Print Info]
                    /\ stats (snd (update_stats fuel E s)) = Holds (JList data)
                    /\ fst (update_stats fuel E s) = Ok tt
                | OpenRefused =>
                    tail = before ++ [WriteStats data]
                    /\ stats (snd (update_stats fuel E s)) = stats s
                    /\ fst (update_stats fuel E s) = Raise OSError
                | DumpBroken e whole =>
                    tail = before ++ [WriteStats data]
                    /\ stats (snd (update_stats fuel E s))
                       = (if whole then Holds (JList data) else Unreadable)
                    /\ fst (update_stats fuel E s) = Raise e
                end).
Proof.
  rewrite update_stats_run.
  destruct (quiet_get_session E s) as (evs0 & Hs0 & F0). rewrite Hs0.
  set (s0 := {| trace := trace s ++ evs0; stats := stats s |}).
  destruct (quiet_fetch_all_repos fuel E s0) as (evs1 & Hs1 & F1).
  destruct (fetch_all_repos fuel E s0) as [[[|r rs]|f] s1]; cbn [snd] in Hs1;
    subst s1 s0; cbn [trace stats].
  - exists (evs0 ++ evs1), [Print Warn]. unfold log; cbn [fst snd trace stats].
    rewrite <- !app_assoc, events_since_app, forallb_app, F0, F1.
    repeat split. now left.
  - set (s1 := {| trace := (trace s ++ evs0) ++ evs1; stats := stats s |}).
    destruct (quiet_compute_total_lines (r :: rs) E s1) as (evs2 & Hs2 & F2).
    destruct (compute_total_lines (r :: rs) E s1) as [[t|f] s2]; cbn [snd] in Hs2;
      subst s2 s1; cbn [trace stats].
    + set (s2 := {| trace := ((trace s ++ evs0) ++ evs1) ++ evs2; stats := stats s |}).
      destruct (load_events E s2) as (evsL & existing & Hload & GL & SL & WL).
      rewrite Hload. subst s2. cbn [trace stats].
      exists (evs0 ++ evs1 ++ evs2).
      destruct (upsert existing (today E) t) as [merged|f].
      * rewrite save_stats_run. cbn [trace].
        assert (Hhist : (((trace s ++ evs0) ++ evs1) ++ evs2) ++ evsL
                        = trace s ++ (evs0 ++ evs1 ++ evs2) ++ evsL)
          by now rewrite <- !app_assoc.
        destruct (disk E ((((trace s ++ evs0) ++ evs1) ++ evs2) ++ evsL) merged)
          as [| |e whole] eqn:Hdisk; rewrite Hhist in Hdisk.
        -- exists (evsL ++ [WriteStats merged; Print Info]).
           unfold log; cbn [fst snd trace stats].
           rewrite <- !app_assoc, events_since_app, !forallb_app, F0, F1, F2.
           rewrite gets_app, slept_app, GL, SL. repeat split.
           right. exists merged, evsL. rewrite Hdisk. now repeat split.
        -- exists (evsL ++ [WriteStats merged]).
           unfold log; cbn [fst snd trace stats].
           rewrite <- !app_assoc, events_since_app, !forallb_app, F0, F1, F2.
           rewrite gets_app, slept_app, GL, SL. repeat split.
           right. exists merged, evsL. rewrite Hdisk. now repeat split.
        -- exists (evsL ++ [WriteStats merged]).
           unfold log; cbn [fst snd trace stats].
           rewrite <- !app_assoc, events_since_app, !forallb_app, F0, F1, F2.
           rewrite gets_app, slept_app, GL, SL. repeat split.
           right. exists merged, evsL. rewrite Hdisk. now repeat split.
      * exists evsL. cbn [fst snd trace stats].
        rewrite <- !app_assoc, events_since_app, !forallb_app, F0, F1, F2.
        repeat split; try assumption. now left.
    + exists (evs0 ++ evs1 ++ evs2), []. cbn [snd trace stats].
      rewrite <- !app_assoc, events_since_app, !forallb_app, F0, F1, F2.
      rewrite !app_nil_r. repeat split. now left.
  - exists (evs0 ++ evs1), []. cbn [snd trace stats].
    rewrite <- !app_assoc, events_since_app, forallb_app, F0, F1.
    rewrite !app_nil_r. repeat split. now left.
Qed.

Lemma one_repo_normal samples :
  forallb sample_or_malformed samples = true -> normal_operation (one_repo samples).
Proof.
  intros Hs h [page|owner name|owner name]; cbn [one_repo http typed_answer].
  - change (200 =? 200) with true. cbv iota. now destruct (page =? 1).
  - change (200 =? 200) with true. cbv iota. exact Hs.
  - reflexivity.
Qed.

Lemma load_returns_loaded E s :
  exists s', load_existing_stats E s = (Ok (loaded (stats s)), s').
Proof.
  destruct (holds_list (stats s)) eqn:Hl.
  - destruct (stats s) as [| |[| | | | |l|]] eqn:Hs; try discriminate Hl.
    rewrite (load_list E s l Hs). now eexists.
  - destruct (load_starts_empty_nolist E s Hl) as (Hr & _).
    destruct (load_existing_stats E s) as [o s']. cbn [fst] in Hr. subst o.
    exists s'. destruct (stats s) as [| |[| | | | |l|]]; try reflexivity.
    discriminate Hl.
Qed.

(** X13. In normal operation, with a file that can be written, from a
    store that is absent, unreadable or holding records, a run with a
    repository in its listing returns, and [stats.json] then holds the
    merge of the total that [compute_total_lines] returned into the records
    the store held: a list of records in date order, with a record of the
    day holding that total, which is not negative.  The next
    [load_existing_stats] returns that list. *)
Theorem normal_run_persists_sorted_records (fuel : nat) (E : env) (s s1 : state)
    (r : json) (rs : list json)
    (Hnormal : normal_operation E)
    (Hwritable : writable E)
    (Hstore : store_typed (stats s) = true)
    (Hlisting : fetch_all_repos fuel E (snd (get_session E s)) = (Ok (r :: rs), s1)) :
  exists total s2 s3 data,
    compute_total_lines (r :: rs) E s1 = (Ok total, s2)
    /\ 0 <= total
    /\ update_stats fuel E s = (Ok tt, s3)
    /\ upsert (loaded (stats s)) (today E) total = Ok data
    /\ stats s3 = Holds (JList data)
    /\ StronglySorted date_le data
    /\ store_typed (stats s3) = true
    /\ (exists e,
          In e data /\ dated (today E) e = true
          /\ total_of e = Some (JInt total))
    /\ (forall E', fst (load_existing_stats E' s3) = Ok data).
Proof.
  rewrite update_stats_run, Hlisting.
  pose proof (fetch_all_repos_descriptors E fuel Hnormal _ _ _ Hlisting) as Hdesc.
  pose proof (quiet_stats get_session E s quiet_get_session) as H0.
  pose proof (quiet_stats (fetch_all_repos fuel) E (snd (get_session E s))
                (quiet_fetch_all_repos fuel)) as H1.
  rewrite Hlisting in H1. cbn [snd] in H1.
  destruct (yields_compute_total_lines E (r :: rs) Hnormal Hdesc s1)
    as (t & s2 & Hcompute & _).
  pose proof (quiet_stats (compute_total_lines (r :: rs)) E s1
                (quiet_compute_total_lines (r :: rs))) as H2.
  pose proof (compute_total_lines_nonneg (r :: rs) E s1 t s2 Hcompute) as Ht.
  rewrite Hcompute in *. cbn [snd] in H2. cbv beta in Ht.
  assert (Hs2 : stats s2 = stats s) by now rewrite H2, H1, H0.
  destruct (load_returns_loaded E s2) as (s3 & Hload). rewrite Hload, Hs2.
  assert (Hexisting : forallb well_dated (loaded (stats s)) = true).
  { destruct (stats s) as [| |[| | | | |l|]]; try reflexivity. exact Hstore. }
  destruct (upsert_well_dated (today E) t (loaded (stats s)) Hexisting)
    as (l1 & _ & Hw1 & Hmerge).
  rewrite Hmerge, save_stats_run, Hwritable.
  assert (Hw : forallb well_dated (sort_entries l1) = true)
    by (apply (forallb_perm _ l1);
        [apply Permutation_sym, sort_entries_perm|exact Hw1]).
  exists t, s2. eexists _, (sort_entries l1). split; [reflexivity|].
  split; [exact Ht|]. split; [reflexivity|].
  split; [first [exact Hmerge|reflexivity]|].
  cbn [log stats store_typed]. split; [reflexivity|].
  split; [apply sort_entries_strongly_sorted|]. split; [exact Hw|]. split.
  - exact (upsert_holds_total (loaded (stats s)) (today E) t _ Hmerge).
  - intros E'.
    now rewrite (load_list E'
                   (log (Print Info)
                      {| trace := trace s3 ++ [WriteStats (sort_entries l1)];
                         stats := Holds (JList (sort_entries l1)) |})
                   (sort_entries l1) eq_refl).
Qed.

Lemma normal_run_witness :
  normal_operation (one_repo two_weeks)
  /\ writable (one_repo two_weeks)
  /\ store_typed (stats fresh) = true
  /\ exists total s2 s3 data,
       compute_total_lines [octo_repo] (one_repo two_weeks)
         (snd (fetch_all_repos 3 (one_repo two_weeks)
                 (snd (get_session (one_repo two_weeks) fresh))))
       = (Ok total, s2)
       /\ update_stats 3 (one_repo two_weeks) fresh = (Ok tt, s3)
       /\ upsert (loaded (stats fresh)) "2024-01-01" total = Ok data
       /\ stats s3 = Holds (JList data).
Proof.
  assert (H : normal_operation (one_repo two_weeks))
    by (apply one_repo_normal; reflexivity).
  assert (Hw : writable (one_repo two_weeks)) by (intros h data; reflexivity).
  split; [exact H|]. split; [exact Hw|]. split; [reflexivity|].
  destruct (normal_run_persists_sorted_records 3 (one_repo two_weeks) fresh
              _ _ _ H Hw eq_refl eq_refl)
    as (total & s2 & s3 & data & Hcompute & _ & Hrun & Hmerge & Hstats & _).
  now exists total, s2, s3, data.
Defined.

(** ** Answers that are not retried, sums that compose *)

(** X14. An answer other than 202 settles the weekly statistics at once:
    one request, no wait, and the result that goes with the status. *)
Theorem first_answer_settles (E : env) (s : state) (owner name : json)
    (st : Z) (b : option json)
    (Hanswer : http E (trace s) (CodeFrequency owner name) = Response st b)
    (Hst : st <> 202) :
  fst (fetch_repo_code_frequency owner name default_retries
         default_backoff_seconds E s) = settled st b
  /\ gets (events_since s
             (snd (fetch_repo_code_frequency owner name default_retries
                     default_backoff_seconds E s))) = 1%nat
  /\ slept (events_since s
              (snd (fetch_repo_code_frequency owner name default_retries
                      default_backoff_seconds E s))) = 0.
Proof.
  unfold fetch_repo_code_frequency, settled. rewrite default_attempts.
  cbn [code_frequency_attempts].
  rewrite (bind_session_get _ _ E s st b Hanswer). cbn [status_code].
  apply Z.eqb_neq in Hst. rewrite Hst.
  destruct (st =? 204).
  { rewrite bind_print. unfold ret, log. cbn [fst snd trace stats].
    rewrite <- app_assoc, events_since_app. now repeat split. }
  destruct (st =? 200); cbn [negb].
  - unfold resp_json. rewrite bind_lift. cbn [body].
    destruct b as [[| | | | |samples|]|]; rewrite ?bind_print;
      unfold ret, Raise, log; cbn [fst snd trace stats];
      rewrite <- ?app_assoc, events_since_app; now repeat split.
  - rewrite bind_print. unfold ret, log. cbn [fst snd trace stats].
    rewrite <- app_assoc, events_since_app. now repeat split.
Qed.

Lemma first_answer_witness :
  http unauthorized (trace fresh) (CodeFrequency (JStr "octo") (JStr "repo"))
  = Response 401 None
  /\ 401 <> 202
  /\ fst (fetch_repo_code_frequency (JStr "octo") (JStr "repo") default_retries
            default_backoff_seconds unauthorized fresh) = Ok None.
Proof.
  split; [reflexivity|]. split; [discriminate|].
  exact (proj1 (first_answer_settles unauthorized fresh (JStr "octo") (JStr "repo")
                  401 None eq_refl ltac:(discriminate))).
Defined.

Lemma sum_weeks_from E freq : forall acc,
  sum_weeks E freq acc
  = obind (sum_weeks E freq 0) (fun sum => Ok (acc + sum)).
Proof.
  induction freq as [|week rest IH]; intros acc; cbn [sum_weeks obind].
  - f_equal. lia.
  - destruct week as [| | | | |items|]; try apply IH.
    destruct (List.length items <? 3)%nat; [apply IH|].
    destruct items as [|t [|a [|d [|x more]]]]; try reflexivity.
    destruct (py_int E a) as [za|f]; [|reflexivity]. cbn [obind].
    destruct (py_int E d) as [zd|f]; [|reflexivity]. cbn [obind].
    rewrite (IH (acc + (za - zd))), (IH (0 + (za - zd))).
    destruct (sum_weeks E rest 0) as [sum|f]; [|reflexivity]. cbn [obind].
    f_equal. lia.
Qed.

Lemma sum_weeks_app E first : forall rest acc,
  sum_weeks E (first ++ rest) acc
  = obind (sum_weeks E first acc) (sum_weeks E rest).
Proof.
  induction first as [|week first IH]; intros rest acc; [reflexivity|].
  cbn [app sum_weeks].
  destruct week as [| | | | |items|]; try apply IH.
  destruct (List.length items <? 3)%nat; [apply IH|].
  destruct items as [|t [|a [|d [|x more]]]]; try reflexivity.
  destruct (py_int E a) as [za|f]; [|reflexivity]. cbn [obind].
  destruct (py_int E d) as [zd|f]; [|reflexivity]. cbn [obind]. apply IH.
Qed.

(** X15. Weekly sums compose, whatever the samples are: the sum over
    [first ++ rest] is the sum of [first] plus the sum of [rest], and it
    fails with the failure of [first], or else with that of [rest]. *)
Theorem weekly_sums_compose (E : env) (first rest : list json) :
  sum_weeks E (first ++ rest) 0
  = match sum_weeks E first 0 with
    | Ok a =>
        match sum_weeks E rest 0 with
        | Ok b => Ok (a + b)
        | Fail f => Fail f
        end
    | Fail f => Fail f
    end.
Proof.
  rewrite sum_weeks_app.
  destruct (sum_weeks E first 0) as [a|f]; [|reflexivity]. cbn [obind].
  rewrite sum_weeks_from. now destruct (sum_weeks E rest 0).
Qed.

(** X16. A listing refused at the first page is taken for an account with
    no repository: after that one request the run prints its warning and
    returns, and the store is left as it was. *)
Theorem refused_listing_skips_the_update (E : env) (fuel : nat) (s : state)
    (Hrefused : serves_pages E [])
    (Hfuel : (0 < fuel)%nat) :
  fst (update_stats fuel E s) = Ok tt
  /\ stats (snd (update_stats fuel E s)) = stats s
  /\ gets (events_since s (snd (update_stats fuel E s))) = 1%nat
  /\ filter (fun e => negb (file_free e))
       (events_since s (snd (update_stats fuel E s))) = [].
Proof.
  destruct Hrefused as [Hserve Hend].
  assert (exists evs0,
            snd (get_session E s) = {| trace := trace s ++ evs0; stats := stats s |}
            /\ gets evs0 = 0%nat /\ forallb file_free evs0 = true)
    as (evs0 & Hs0 & Hg0 & Hf0).
  { unfold get_session. destruct (has_token E).
    - exists []. rewrite app_nil_r. now destruct s.
    - now exists [Print Warn]. }
  rewrite update_stats_run, fetch_all_repos_run, Hs0.
  destruct (fetch_pages_serves E [] fuel 1 []
              (log (Print Info) {| trace := trace s ++ evs0; stats := stats s |})
              (Forall_nil _) Hfuel Hserve Hend) as (evs & Hrun & Hgets).
  rewrite Hrun. cbn [app List.concat non_fork]. unfold log.
  cbn [fst snd trace stats]. split; [reflexivity|]. split; [reflexivity|].
  rewrite <- !app_assoc, events_since_app.
  assert (Hfree : forallb file_free evs = true).
  { destruct (quiet_fetch_pages fuel 1 [] E
                (log (Print Info) {| trace := trace s ++ evs0; stats := stats s |}))
      as (evs' & Hq & Hfree).
    rewrite Hrun in Hq. cbn [snd] in Hq. injection Hq as Hq.
    apply app_inv_head in Hq. now subst. }
  split.
  - unfold gets in *. rewrite !filter_app, !length_app, Hg0, Hgets. reflexivity.
  - rewrite !filter_app.
    assert (Hnone : forall l, forallb file_free l = true ->
              filter (fun e => negb (file_free e)) l = []).
    { induction l as [|e l IH]; [reflexivity|]. cbn [forallb filter].
      intros H. apply andb_prop in H as [-> Hl]. now apply IH. }
    now rewrite (Hnone _ Hf0), (Hnone _ Hfree).
Qed.

Lemma refused_listing_witness :
  serves_pages unauthorized []
  /\ fst (update_stats 1 unauthorized fresh) = Ok tt.
Proof.
  assert (H : serves_pages unauthorized []).
  { split; [intros h i Hi; cbn in Hi; lia|reflexivity]. }
  split; [exact H|].
  exact (proj1 (refused_listing_skips_the_update unauthorized 1 fresh H
                  ltac:(lia))).
Defined.
